(** * FunSearch: the sampler/evaluator orchestration loop

    A shallow embedding of [llm4ad/method/funsearch/funsearch.py]:
    the body of [FunSearch._sample_evaluate_register], the start-up
    part of [FunSearch.run], and the threads that [run] starts, as an
    interleaving of worker steps over the shared fields of the
    [FunSearch] object. *)

From Stdlib Require Import ZArith String Lia Bool.
From stdpp Require Import base list option numbers.

Local Open Scope Z_scope.

(** ** Exceptions

    The exception classes the two [except] clauses of the worker loop
    tell apart: [KeyboardInterrupt] and [SystemExit] derive from
    [BaseException] only, the others from [Exception]. *)
Inductive Exn :=
| KeyboardInterrupt
| SystemExit
| ZeroDivisionError
| RuntimeError (msg : string)
| OtherException (cls : string)
| OtherBaseException (cls : string).

(** [isinstance(e, Exception)]. *)
Definition is_Exception (e : Exn) : bool :=
  match e with
  | KeyboardInterrupt | SystemExit | OtherBaseException _ => false
  | ZeroDivisionError | RuntimeError _ | OtherException _ => true
  end.

(** The two profiler classes the loop distinguishes with [isinstance]. *)
Inductive ProfilerKind := FunSearchProfiler | ProfilerBase.

Section FunSearch.

(** [Program] (llm4ad.base), the evaluator's score and the float
    durations of [time.time()] are kept abstract. *)
Context {Program Score Time : Type}.

(** Modelled from the spec: the class [Function] of llm4ad.base is not
    part of the sources; section 3 of the specification gives it a name,
    a body and the annotations [score], [sample_time], [evaluate_time]
    that are attached after evaluation. *)
Record Function := mkFunction {
  name : string;
  body : string;
  score : option Score;
  sample_time : option Time;
  evaluate_time : option Time
}.

(** Modelled from the spec: what [ProgramsDatabase.get_prompt] returns,
    [{code, island_id}]. *)
Record Prompt := mkPrompt {
  code : string;
  island_id : option Z
}.

(** ** Calls made on the collaborators, in the order they are made. *)
Inductive Event :=
| EvEvaluateSeed (p : Program)
| EvGetPrompt
| EvDrawSamples (prompt_contents : list string)
| EvDbRegister (f : Function) (island : option Z) (sc : option Score)
| EvProfRegister (f : Function)
| EvProfRegisterDb
| EvPrintExc
| EvExit
| EvShutdown
| EvThreadStart (i : nat)
| EvProfFinish.

(** ** The shared fields of the [FunSearch] object

    [_tot_sample_nums], the tasks handed to [_evaluation_executor] (a
    future is the position of its task), and the log of calls. *)
Record State := mkState {
  tot_sample_nums : Z;
  pool : list Program;
  trace : list Event
}.

(** The collaborators.  Those with state of their own (the store, the
    language model, the clock, the profiler) answer as a function of the
    calls made so far; the two converters are pure.  A call that raises
    yields [inl]. *)
Record Env := mkEnv {
  get_prompt : list Event -> Exn + Prompt;
  draw_samples : list Event -> list string -> Exn + list string;
  clock : list Event -> Time;
  time_sub : Time -> Time -> Time;
  time_div : Time -> nat -> Time;
  sample_to_program : string -> Program -> option Program;
  program_to_function : Program -> option Function;
  submit_raises : list Event -> Program -> option Exn;
  future_result : nat -> Program -> Exn + (option Score * Time);
  evaluate_program_record_time :
    list Event -> Program -> Exn + (option Score * Time);
  register_function_raises :
    list Event -> Function -> option Z -> option Score -> option Exn;
  profiler_register_raises : list Event -> Function -> option Exn;
  profiler_register_db_raises : list Event -> option Exn
}.

(** The constructor arguments that the loop reads. *)
Record Config := mkConfig {
  max_sample_nums : option Z;
  num_samplers : Z;
  samples_per_prompt : Z;
  resume_mode : bool;
  debug_mode : bool;
  profiler : option ProfilerKind;
  template_program : Program;
  function_to_evolve : Function
}.

(** ** State and exception monad *)
Definition M (A : Type) : Type := State -> State * (Exn + A).

Definition ret {A} (a : A) : M A := fun st => (st, inr a).

Definition raise {A} (e : Exn) : M A := fun st => (st, inl e).

Definition bind {A B} (m : M A) (k : A -> M B) : M B :=
  fun st =>
    match m st with
    | (st', inr a) => k a st'
    | (st', inl e) => (st', inl e)
    end.

Notation "'do' x <- m ; k" := (bind m (fun x => k))
  (at level 10, x name, m at level 100, k at level 200, only parsing).

Definition log (ev : Event) (st : State) : State :=
  mkState (tot_sample_nums st) (pool st) (trace st ++ [ev]).

(** A call on a collaborator: it is logged, and its outcome is what the
    collaborator answers after the calls made before it. *)
Definition call {A} (ev : Event) (answer : list Event -> Exn + A) : M A :=
  fun st => (log ev st, answer (trace st)).

Definition raising (o : option Exn) : Exn + unit :=
  match o with
  | Some e => inl e
  | None => inr tt
  end.

Variable env : Env.
Variable cfg : Config.

(** [time.time()] *)
Definition time_time : M Time := fun st => (st, inr (clock env (trace st))).

(** ** The worker iteration, lines 125-176 *)

(** Lines 136-141. *)
Fixpoint convert_samples (sampled_funcs : list string) : list Program :=
  match sampled_funcs with
  | [] => []
  | func :: rest =>
      match sample_to_program env func (template_program cfg) with
      | Some program => program :: convert_samples rest
      | None => convert_samples rest
      end
  end.

(** [self._evaluation_executor.submit(..., program)]: the future. *)
Definition submit (program : Program) : M nat :=
  fun st =>
    match submit_raises env (trace st) program with
    | Some e => (st, inl e)
    | None =>
        (mkState (tot_sample_nums st) (pool st ++ [program]) (trace st),
         inr (length (pool st)))
    end.

(** Lines 144-147. *)
Fixpoint submit_all (programs : list Program) : M (list nat) :=
  match programs with
  | [] => ret []
  | program :: rest =>
      do future <- submit program ;
      do futures <- submit_all rest ;
      ret (future :: futures)
  end.

(** [f.result()] *)
Definition result (f : nat) : M (option Score * Time) :=
  fun st =>
    match pool st !! f with
    | Some program => (st, future_result env f program)
    | None => (st, inl (OtherException "InvalidStateError"))
    end.

(** Line 149. *)
Fixpoint collect (futures : list nat) : M (list (option Score * Time)) :=
  match futures with
  | [] => ret []
  | f :: rest =>
      do r <- result f ;
      do rs <- collect rest ;
      ret (r :: rs)
  end.

(** [zip(programs_to_be_eval, scores, times)] *)
Definition zip3 {A B C} (l1 : list A) (l2 : list B) (l3 : list C)
  : list (A * B * C) :=
  zip_with (fun ab c => (ab, c)) (zip_with pair l1 l2) l3.

Definition Item : Type := Program * option Score * Time.

(** What the registration loop needs from lines 126-153. *)
Record Batch := mkBatch {
  batch_island : option Z;
  batch_avg : Time;
  batch_items : list Item
}.

(** Line 127. *)
Definition prompt_contents (prompt : Prompt) : list string :=
  replicate (Z.to_nat (samples_per_prompt cfg)) (code prompt).

(** Lines 126-153. *)
Definition sample_batch : M Batch :=
  do prompt <- call EvGetPrompt (get_prompt env) ;
  let prompt_contents := prompt_contents prompt in
  do draw_sample_start <- time_time ;
  do sampled_funcs <- call (EvDrawSamples prompt_contents)
                        (fun h => draw_samples env h prompt_contents) ;
  do draw_sample_end <- time_time ;
  let draw_sample_times := time_sub env draw_sample_end draw_sample_start in
  do avg_time_for_each_sample <-
    (if (length sampled_funcs =? 0)%nat
     then raise ZeroDivisionError
     else ret (time_div env draw_sample_times (length sampled_funcs))) ;
  let programs_to_be_eval := convert_samples sampled_funcs in
  do futures <- submit_all programs_to_be_eval ;
  do scores_times <- collect futures ;
  let scores := fst <$> scores_times in
  let times := snd <$> scores_times in
  ret (mkBatch (island_id prompt) avg_time_for_each_sample
         (zip3 programs_to_be_eval scores times)).

(** The write half of [self._tot_sample_nums += 1]. *)
Definition store_tot (v : Z) : M unit :=
  fun st => (mkState v (pool st) (trace st), inr tt).

Definition annotate (f : Function) (sc : option Score)
    (st_time : option Time) (ev_time : option Time) : Function :=
  mkFunction (name f) (body f) sc st_time ev_time.

(** Lines 156-176 for one triple of the [zip], once the counter has
    been read as [loaded]. *)
Definition register_sample (loaded : Z) (island : option Z) (avg : Time)
    (item : Item) : M unit :=
  let '(program, sc, eval_time) := item in
  do _ <- store_tot (loaded + 1) ;
  match program_to_function env program with
  | None => ret tt
  | Some function =>
      do _ <- (match sc with
               | Some _ =>
                   call (EvDbRegister function island sc)
                     (fun h => raising (register_function_raises env h
                                          function island sc))
               | None => ret tt
               end) ;
      match profiler cfg with
      | Some kind =>
          let function' := annotate function sc (Some avg) (Some eval_time) in
          do _ <- call (EvProfRegister function')
            (fun h => raising (profiler_register_raises env h function')) ;
          match kind with
          | FunSearchProfiler =>
              call EvProfRegisterDb
                (fun h => raising (profiler_register_db_raises env h))
          | ProfilerBase => ret tt
          end
      | None => ret tt
      end
  end.

(** The loop body when nothing runs between the read and the write of
    the counter. *)
Definition loop_item (island : option Z) (avg : Time) (item : Item) : M unit :=
  fun st => register_sample (tot_sample_nums st) island avg item st.

(** Lines 154-176. *)
Fixpoint register_all (island : option Z) (avg : Time) (items : list Item)
  : M unit :=
  match items with
  | [] => ret tt
  | item :: rest =>
      do _ <- loop_item island avg item ;
      register_all island avg rest
  end.

(** The [try] block of one iteration. *)
Definition try_block : M unit :=
  do b <- sample_batch ;
  register_all (batch_island b) (batch_avg b) (batch_items b).

(** How control leaves the [try] statement. *)
Inductive Flow :=
| Continue
| Break
| Unwind (e : Exn).

(** Lines 177-183.  [exit()] raises [SystemExit], which no clause of
    this [try] catches. *)
Definition handle (r : State * (Exn + unit)) : State * Flow :=
  match r with
  | (st, inr _) => (st, Continue)
  | (st, inl KeyboardInterrupt) => (st, Break)
  | (st, inl e) =>
      if is_Exception e then
        if debug_mode cfg
        then (log EvExit (log EvPrintExc st), Unwind SystemExit)
        else (st, Continue)
      else (st, Unwind e)
  end.

(** One iteration of the [while] loop, run without interleaving. *)
Definition iteration (st : State) : State * Flow := handle (try_block st).

(** The loop test of line 123. *)
Definition budget_left (st : State) : bool :=
  match max_sample_nums cfg with
  | None => true
  | Some m => tot_sample_nums st <? m
  end.

(** Lines 185-189. *)
Definition shutdown (st : State) : State := log EvShutdown st.

(** ** The start of [run], lines 192-203 *)

Definition quote : string := String (Ascii.ascii_of_nat 34) EmptyString.

Definition seed_error_message : string :=
  ("The score of the template function must not be "
     ++ quote ++ "None" ++ quote ++ ".")%string.

Definition seed_and_register : M unit :=
  if resume_mode cfg then ret tt
  else
    do r <- call (EvEvaluateSeed (template_program cfg))
              (fun h => evaluate_program_record_time env h (template_program cfg)) ;
    let '(sc, eval_time) := r in
    match sc with
    | None => raise (RuntimeError seed_error_message)
    | Some _ =>
        let seed := function_to_evolve cfg in
        do _ <- call (EvDbRegister seed None sc)
                  (fun h => raising (register_function_raises env h seed None sc)) ;
        match profiler cfg with
        | Some _ =>
            let seed' := annotate seed sc (sample_time seed) (Some eval_time) in
            call (EvProfRegister seed')
              (fun h => raising (profiler_register_raises env h seed'))
        | None => ret tt
        end
    end.

(** ** The threads

    Where a sampler thread stands in [_sample_evaluate_register]. *)
Inductive ExitReason := BudgetReached | Interrupted.

Inductive Worker :=
| WNotStarted
| WAtTest
| WInLoop (island : option Z) (avg : Time) (item : Item) (rest : list Item)
| WLoaded (loaded : Z) (island : option Z) (avg : Time)
    (item : Item) (rest : list Item)
| WReturned (why : ExitReason)
| WUnwound (e : Exn).

(** The [for] of line 154 takes the next triple, or the [try] block is
    over and the [while] test comes next. *)
Definition next_item (island : option Z) (avg : Time) (rest : list Item)
  : Worker :=
  match rest with
  | [] => WAtTest
  | item :: rest' => WInLoop island avg item rest'
  end.

(** Where the thread goes once the [try] statement is left: [continue],
    [break] followed by lines 185-189, or an exception that leaves
    [_sample_evaluate_register] and with it ends the thread. *)
Definition leave (r : State * Flow) : State * Worker :=
  match r with
  | (st, Continue) => (st, WAtTest)
  | (st, Break) => (shutdown st, WReturned Interrupted)
  | (st, Unwind e) => (st, WUnwound e)
  end.

Definition finish_item (loaded : Z) (island : option Z) (avg : Time)
    (item : Item) (rest : list Item) (st : State) : State * Worker :=
  match register_sample loaded island avg item st with
  | (st', inr _) => (st', next_item island avg rest)
  | (st', inl e) => leave (handle (st', inl e))
  end.

(** One step of a sampler thread.  The counter is the only field the
    threads write outside the collaborators, so the thread is observed
    at the loop test and at the counter update.  With [atomic] the read
    and the write of [+= 1] are one step; without it another thread may
    run in between. *)
Definition worker_step (atomic : bool) (w : Worker) (st : State)
  : State * Worker :=
  match w with
  | WAtTest =>
      if budget_left st then
        match sample_batch st with
        | (st', inr b) =>
            (st', next_item (batch_island b) (batch_avg b) (batch_items b))
        | (st', inl e) => leave (handle (st', inl e))
        end
      else (shutdown st, WReturned BudgetReached)
  | WInLoop island avg item rest =>
      if atomic then finish_item (tot_sample_nums st) island avg item rest st
      else (st, WLoaded (tot_sample_nums st) island avg item rest)
  | WLoaded loaded island avg item rest =>
      finish_item loaded island avg item rest st
  | WNotStarted | WReturned _ | WUnwound _ => (st, w)
  end.

(** Where the main thread stands in [run] after line 203. *)
Inductive Main :=
| MStarting (i : nat)
| MJoining (i : nat)
| MReturned
| MRaised (e : Exn).

Record System := mkSystem {
  shared : State;
  main_thread : Main;
  workers : list Worker
}.

(** [len(self._sampler_threads)], line 119. *)
Definition nworkers : nat := Z.to_nat (num_samplers cfg).

Definition terminated (w : Worker) : bool :=
  match w with
  | WReturned _ | WUnwound _ => true
  | _ => false
  end.

(** Lines 206-214: [start] each thread, [join] each, [finish]. *)
Definition main_step (s : System) : System :=
  match main_thread s with
  | MStarting i =>
      if (i <? nworkers)%nat
      then mkSystem (log (EvThreadStart i) (shared s)) (MStarting (S i))
             (<[i := WAtTest]> (workers s))
      else mkSystem (shared s) (MJoining 0) (workers s)
  | MJoining i =>
      if (i <? nworkers)%nat then
        match workers s !! i with
        | Some w =>
            if terminated w
            then mkSystem (shared s) (MJoining (S i)) (workers s)
            else s
        | None => s
        end
      else
        mkSystem
          (match profiler cfg with
           | Some _ => log EvProfFinish (shared s)
           | None => shared s
           end)
          MReturned (workers s)
  | MReturned | MRaised _ => s
  end.

(** The scheduler picks the thread that runs next; a thread that cannot
    run (not started, ended, or blocked in [join]) leaves the system as
    it is. *)
Inductive Action :=
| RunMain
| RunWorker (i : nat).

Definition step (atomic : bool) (s : System) (a : Action) : System :=
  match a with
  | RunMain => main_step s
  | RunWorker i =>
      match workers s !! i with
      | Some w =>
          let '(st', w') := worker_step atomic w (shared s) in
          mkSystem st' (main_thread s) (<[i := w']> (workers s))
      | None => s
      end
  end.

Definition exec (atomic : bool) (sched : list Action) (s : System) : System :=
  foldl (step atomic) s sched.

(** The object as [__init__] leaves it (line 104), then lines 192-203. *)
Definition init_state : State := mkState 0 [] [].

Definition boot : System :=
  match seed_and_register init_state with
  | (st, inr _) => mkSystem st (MStarting 0) (replicate nworkers WNotStarted)
  | (st, inl e) => mkSystem st (MRaised e) (replicate nworkers WNotStarted)
  end.

(** [run()] under a schedule. *)
Definition run (atomic : bool) (sched : list Action) : System :=
  exec atomic sched boot.

(** [_sample_evaluate_register] as one thread runs it when no other
    thread interferes: the [while] loop of line 123 around [iteration],
    then lines 185-189.  [fuel] bounds the number of iterations; the
    state the thread ends in says how it left. *)
Fixpoint sample_evaluate_register (fuel : nat) (st : State)
  : option (State * Worker) :=
  if budget_left st then
    match fuel with
    | O => None
    | S fuel' =>
        match leave (iteration st) with
        | (st', WAtTest) => sample_evaluate_register fuel' st'
        | r => Some r
        end
    end
  else Some (shutdown st, WReturned BudgetReached).

End FunSearch.

(** ** What is observed of a run *)
Section Observations.

Context {Program Score Time : Type}.

Local Abbreviation Event := (@Event Program Score Time).
Local Abbreviation State := (@State Program Score Time).
Local Abbreviation Function := (@Function Score Time).

(** The calls of [register_function] on the population store. *)
Definition registrations (tr : list Event)
  : list (Function * option Z * option Score) :=
  omap (fun ev => match ev with
                  | EvDbRegister f island sc => Some (f, island, sc)
                  | _ => None
                  end) tr.

(** The functions handed to the profiler. *)
Definition reports (tr : list Event) : list Function :=
  omap (fun ev => match ev with
                  | EvProfRegister f => Some f
                  | _ => None
                  end) tr.

Definition is_thread_start (ev : Event) : bool :=
  match ev with
  | EvThreadStart _ => true
  | _ => false
  end.

(** A call that does not register a function with score [None]. *)
Definition scored (ev : Event) : Prop :=
  match ev with
  | EvDbRegister _ _ None => False
  | _ => True
  end.

(** The calls a sampler thread makes. *)
Definition worker_event (ev : Event) : Prop :=
  match ev with
  | EvGetPrompt | EvDrawSamples _ | EvDbRegister _ _ (Some _)
  | EvProfRegister _ | EvProfRegisterDb | EvPrintExc | EvExit
  | EvShutdown => True
  | _ => False
  end.

(** The calls of lines 192-203. *)
Definition startup_event (ev : Event) : Prop :=
  match ev with
  | EvEvaluateSeed _ | EvDbRegister _ None (Some _) | EvProfRegister _ => True
  | _ => False
  end.

(** The calls of lines 206-214. *)
Definition main_event (ev : Event) : Prop :=
  match ev with
  | EvThreadStart _ | EvProfFinish => True
  | _ => False
  end.

(** [st'] has the log of [st] followed by calls that satisfy [P]. *)
Definition grows_by (P : Event -> Prop) (st st' : State) : Prop :=
  exists evs, trace st' = trace st ++ evs /\ Forall P evs.

Definition emits {A} (P : Event -> Prop) (m : M A) : Prop :=
  forall st, grows_by P st (m st).1.

(** The increments of the counter a thread still has to make in the
    iteration it is in. *)
Definition pending (w : @Worker Program Score Time) : nat :=
  match w with
  | WInLoop _ _ _ rest | WLoaded _ _ _ _ rest => S (length rest)
  | _ => 0
  end.

Definition is_loaded (w : @Worker Program Score Time) : bool :=
  match w with
  | WLoaded _ _ _ _ _ => true
  | _ => false
  end.

Fixpoint total_pending (ws : list (@Worker Program Score Time)) : nat :=
  match ws with
  | [] => 0
  | w :: ws' => pending w + total_pending ws'
  end.

(** Every sampler thread left its loop through the test of line 123:
    the run is complete and was not interrupted. *)
Definition completed (s : @System Program Score Time) : Prop :=
  Forall (fun w => w = WReturned BudgetReached) (workers s).

(** The sampling backend answers at most one candidate per prompt. *)
Definition one_candidate_per_prompt (env : @Env Program Score Time) : Prop :=
  forall h prompts sampled,
    draw_samples env h prompts = inr sampled ->
    (length sampled <= length prompts)%nat.

Definition is_returned (w : @Worker Program Score Time) : bool :=
  match w with
  | WReturned _ => true
  | _ => false
  end.

(** The sampler threads that have returned from
    [_sample_evaluate_register]. *)
Fixpoint count_returned (ws : list (@Worker Program Score Time)) : nat :=
  match ws with
  | [] => 0
  | w :: ws' => (if is_returned w then 1 else 0) + count_returned ws'
  end.

(** The calls of [shutdown] on the executor. *)
Fixpoint count_shutdowns (tr : list Event) : nat :=
  match tr with
  | [] => 0
  | EvShutdown :: tr' => S (count_shutdowns tr')
  | _ :: tr' => count_shutdowns tr'
  end.

(** The calls of [finish] on the profiler. *)
Fixpoint count_finishes (tr : list Event) : nat :=
  match tr with
  | [] => 0
  | EvProfFinish :: tr' => S (count_finishes tr')
  | _ :: tr' => count_finishes tr'
  end.

(** The threads started, in the order of their start. *)
Definition thread_starts (tr : list Event) : list nat :=
  omap (fun ev => match ev with
                  | EvThreadStart i => Some i
                  | _ => None
                  end) tr.

(** The calls an iteration of the loop can make under [cfg]: a batch
    request carries [samples_per_prompt] copies of one text, the store
    gets no score [None], the profiler is called only if there is one,
    [register_program_db] only on a [FunSearchProfiler], and the
    traceback is printed and [exit()] called only with [debug_mode]. *)
Definition iteration_event (cfg : @Config Program Score Time) (ev : Event)
  : Prop :=
  match ev with
  | EvGetPrompt => True
  | EvDrawSamples prompts =>
      exists text,
        prompts = replicate (Z.to_nat (samples_per_prompt cfg)) text
  | EvDbRegister _ _ sc => sc <> None
  | EvProfRegister _ => profiler cfg <> None
  | EvProfRegisterDb => profiler cfg = Some FunSearchProfiler
  | EvPrintExc | EvExit => debug_mode cfg = true
  | _ => False
  end.

(** The calls a run can make under [cfg]. *)
Definition possible_event (cfg : @Config Program Score Time) (ev : Event)
  : Prop :=
  match ev with
  | EvEvaluateSeed p => resume_mode cfg = false /\ p = template_program cfg
  | EvThreadStart i => (i < nworkers cfg)%nat
  | EvProfFinish => profiler cfg <> None
  | EvShutdown => True
  | _ => iteration_event cfg ev
  end.

(** A call that is not a registration in the store. *)
Definition no_registration (ev : Event) : Prop :=
  match ev with
  | EvDbRegister _ _ _ => False
  | _ => True
  end.

(** What line 174 hands to the profiler for a triple of the batch: the
    function of the program, if it converts, with the score, the
    average sampling time and the evaluation time attached. *)
Definition report_of (env : @Env Program Score Time) (avg : Time)
    (item : @Item Program Score Time) : option Function :=
  let '(program, sc, eval_time) := item in
  match program_to_function env program with
  | Some f => Some (annotate f sc (Some avg) (Some eval_time))
  | None => None
  end.

(** What line 164 hands to the store for a triple of the batch: the
    function of the program, if it converts and has a score. *)
Definition registration_of (env : @Env Program Score Time)
    (island : option Z) (item : @Item Program Score Time)
  : option (Function * option Z * option Score) :=
  let '(program, sc, eval_time) := item in
  match program_to_function env program, sc with
  | Some f, Some _ => Some (f, island, sc)
  | _, _ => None
  end.

(** A collaborator's answer that raises nothing but an [Exception]. *)
Definition raises_only_exceptions {A} (r : Exn + A) : Prop :=
  forall e, r = inl e -> is_Exception e = true.

(** Collaborators that never raise, with a sampler of whose candidates
    at least one converts to a program. *)
Definition well_behaved (env : @Env Program Score Time)
    (cfg : @Config Program Score Time) : Prop :=
  (forall h, exists prompt, get_prompt env h = inr prompt) /\
  (forall h prompt,
     exists sampled,
       draw_samples env h (prompt_contents cfg prompt) = inr sampled /\
       convert_samples env cfg sampled <> []) /\
  (forall h p, submit_raises env h p = None) /\
  (forall f p, exists r, future_result env f p = inr r) /\
  (forall h f island sc, register_function_raises env h f island sc = None) /\
  (forall h f, profiler_register_raises env h f = None) /\
  (forall h, profiler_register_db_raises env h = None).

(** The state once the store and the sampler have been called and the
    programs [ps] submitted. *)
Definition sampled_state (cfg : @Config Program Score Time) (st : State)
    (prompt : Prompt) (ps : list Program) : State :=
  mkState (tot_sample_nums st) (pool st ++ ps)
    (trace st ++ [EvGetPrompt; EvDrawSamples (prompt_contents cfg prompt)]).

End Observations.

(** ** Invariants of a run *)
Section Invariants.

Context {Program Score Time : Type}.
Variable env : @Env Program Score Time.
Variable cfg : @Config Program Score Time.

Local Abbreviation System := (@System Program Score Time).

(** The states [run] goes through: nothing has been logged since the
    start-up and no thread is started, or the first call after the
    start-up was the start of the first thread. *)
Definition before_first_start (s : System) : Prop :=
  trace (shared s) = trace (shared (boot env cfg)) /\
  Forall (fun w => w = WNotStarted) (workers s) /\
  match main_thread s with
  | MStarting 0 => exists st0, seed_and_register env cfg init_state = (st0, inr tt)
  | MStarting (S _) => False
  | MJoining _ => nworkers cfg = 0%nat
  | MReturned | MRaised _ => True
  end.

Definition after_first_start (s : System) : Prop :=
  (exists st0, seed_and_register env cfg init_state = (st0, inr tt)) /\
  exists rest,
    trace (shared s)
    = trace (shared (boot env cfg)) ++ EvThreadStart 0 :: rest.

Definition finished_without_threads (s : System) : Prop :=
  trace (shared s) = trace (shared (boot env cfg)) ++ [EvProfFinish] /\
  Forall (fun w => w = WNotStarted) (workers s) /\
  main_thread s = MReturned.

Definition start_invariant (s : System) : Prop :=
  before_first_start s \/ after_first_start s \/ finished_without_threads s.

(** What holds of the counter in every state of a run whose increments
    are atomic: no thread has more than [samples_per_prompt] increments
    left in its iteration, and once the ceiling [m] is reached the
    counter cannot end above [m + nworkers * samples_per_prompt - 1]. *)
Definition budget_invariant (m : Z) (s : System) : Prop :=
  length (workers s) = nworkers cfg /\
  Forall (fun w => is_loaded w = false /\
                   (pending w <= Z.to_nat (samples_per_prompt cfg))%nat)
    (workers s) /\
  (m <= tot_sample_nums (shared s) ->
   tot_sample_nums (shared s) + Z.of_nat (total_pending (workers s))
   <= m + Z.of_nat (nworkers cfg * Z.to_nat (samples_per_prompt cfg)) - 1).

(** Where the threads stand, by the place of the main thread in
    lines 206-214: the threads below the one to start next are the
    started ones, the threads below the one to join next have ended,
    and [finish] is called once, last, when [run] returns. *)
Definition thread_invariant (s : System) : Prop :=
  length (workers s) = nworkers cfg /\
  count_shutdowns (trace (shared s)) = count_returned (workers s) /\
  match main_thread s with
  | MStarting i =>
      (i <= nworkers cfg)%nat /\
      thread_starts (trace (shared s)) = seq 0 i /\
      count_finishes (trace (shared s)) = 0%nat /\
      forall j w, (i <= j)%nat -> workers s !! j = Some w -> w = WNotStarted
  | MJoining i =>
      (i <= nworkers cfg)%nat /\
      thread_starts (trace (shared s)) = seq 0 (nworkers cfg) /\
      count_finishes (trace (shared s)) = 0%nat /\
      forall j w, (j < i)%nat -> workers s !! j = Some w -> terminated w = true
  | MReturned =>
      thread_starts (trace (shared s)) = seq 0 (nworkers cfg) /\
      Forall (fun w => terminated w = true) (workers s) /\
      match profiler cfg with
      | Some _ =>
          count_finishes (trace (shared s)) = 1%nat /\
          exists calls, trace (shared s) = calls ++ [EvProfFinish]
      | None => count_finishes (trace (shared s)) = 0%nat
      end
  | MRaised _ =>
      thread_starts (trace (shared s)) = [] /\
      count_finishes (trace (shared s)) = 0%nat /\
      Forall (fun w => w = WNotStarted) (workers s)
  end.

(** With atomic increments the counter and the increments still due
    never exceed the programs submitted to the executor. *)
Definition submitted_invariant (s : System) : Prop :=
  Forall (fun w => is_loaded w = false) (workers s) /\
  tot_sample_nums (shared s) + Z.of_nat (total_pending (workers s))
  <= Z.of_nat (length (pool (shared s))).

(** A sampler thread that runs [n] steps with no other thread in
    between. *)
Fixpoint worker_steps (n : nat) (r : @State Program Score Time * Worker)
  : State * Worker :=
  match n with
  | O => r
  | S n' => worker_steps n' (worker_step env cfg true r.2 r.1)
  end.

End Invariants.

(** ** Concrete collaborators, for running the model

    Programs are their text, scores and durations are integers.  The
    store always hands out the same prompt, every candidate but ["bad"]
    converts to a program, every program but ["nofunc"] converts to a
    function, the evaluator gives no score to ["invalid"], and only the
    sampler may raise. *)
Module Scenario.

Local Open Scope string_scope.

Definition text_to_function (p : string) : @Function Z Z :=
  mkFunction "f" p None None None.

(** A sampler that answers the first candidates of [samples], one per
    prompt. *)
Definition answer (samples : list string) (h : list (@Event string Z Z))
    (prompts : list string) : Exn + list string :=
  inr (take (length prompts) samples).

Definition printed_exc (h : list (@Event string Z Z)) : bool :=
  existsb (fun ev => match ev with
                     | EvPrintExc => true
                     | _ => false
                     end) h.

(** A sampler whose first call fails, and which answers once a
    traceback has been printed. *)
Definition fails_first (samples : list string) (h : list (@Event string Z Z))
    (prompts : list string) : Exn + list string :=
  if printed_exc h then answer samples h prompts
  else inl (OtherException "ConnectionError").

Definition scenario_env
    (draw : list (@Event string Z Z) -> list string -> Exn + list string)
  : @Env string Z Z :=
  {| get_prompt := fun _ => inr (mkPrompt "def f(): pass" (Some 0));
     draw_samples := draw;
     clock := fun h => Z.of_nat (length h);
     time_sub := Z.sub;
     time_div := fun t n => t `div` Z.of_nat n;
     sample_to_program := fun text _ =>
       if String.eqb text "bad" then None else Some text;
     program_to_function := fun p =>
       if String.eqb p "nofunc" then None else Some (text_to_function p);
     submit_raises := fun _ _ => None;
     future_result := fun _ p =>
       inr (if String.eqb p "invalid" then None else Some 1, 7);
     evaluate_program_record_time := fun _ p =>
       inr (if String.eqb p "invalid" then None else Some 1, 7);
     register_function_raises := fun _ _ _ _ => None;
     profiler_register_raises := fun _ _ => None;
     profiler_register_db_raises := fun _ => None |}.

Definition scenario_cfg (template : string) (max : option Z)
    (samplers per_prompt : Z) (debug : bool) (prof : option ProfilerKind)
  : @Config string Z Z :=
  {| max_sample_nums := max;
     num_samplers := samplers;
     samples_per_prompt := per_prompt;
     resume_mode := false;
     debug_mode := debug;
     profiler := prof;
     template_program := template;
     function_to_evolve := text_to_function template |}.

Definition seed : string := "def f(): pass".

(** The sampler of most runs below answers ["a"] and ["b"]. *)
Definition env : @Env string Z Z := scenario_env (answer ["a"; "b"]).

Definition st0 : @State string Z Z := init_state.

(** Two samplers, two samples per prompt, a budget of three: both
    threads pass the loop test before either counts. *)
Definition two_samplers_schedule : list Action :=
  [RunMain; RunMain;
   RunWorker 0; RunWorker 1;
   RunWorker 0; RunWorker 0;
   RunWorker 1; RunWorker 1;
   RunWorker 0; RunWorker 1;
   RunMain; RunMain; RunMain; RunMain].

(** Three samplers, one sample per prompt, a budget of two; the second
    thread reads the counter at 0 and the first at 2 before either
    writes. *)
Definition race_schedule : list Action :=
  [RunMain; RunMain; RunMain;
   RunWorker 0; RunWorker 1; RunWorker 2;
   RunWorker 1;
   RunWorker 2; RunWorker 2; RunWorker 2; RunWorker 2; RunWorker 2;
   RunWorker 0;
   RunWorker 1; RunWorker 1;
   RunWorker 2;
   RunWorker 0; RunWorker 0;
   RunWorker 2; RunWorker 2; RunWorker 2;
   RunWorker 1; RunWorker 1; RunWorker 1;
   RunMain; RunMain; RunMain; RunMain; RunMain].

(** Two samplers with [debug_mode]: the iteration of the first raises,
    then the second runs an iteration and returns, and the main thread
    joins both. *)
Definition debug_schedule : list Action :=
  [RunMain; RunMain;
   RunWorker 0;
   RunWorker 1; RunWorker 1; RunWorker 1;
   RunMain; RunMain; RunMain; RunMain].

(** The configuration [cfg] of a resumed run. *)
Definition resumed (cfg : @Config string Z Z) : @Config string Z Z :=
  {| max_sample_nums := max_sample_nums cfg;
     num_samplers := num_samplers cfg;
     samples_per_prompt := samples_per_prompt cfg;
     resume_mode := true;
     debug_mode := debug_mode cfg;
     profiler := profiler cfg;
     template_program := template_program cfg;
     function_to_evolve := function_to_evolve cfg |}.

(** Collaborators of which no candidate converts to a program. *)
Definition unconvertible_env : @Env string Z Z :=
  {| get_prompt := get_prompt env;
     draw_samples := draw_samples env;
     clock := clock env;
     time_sub := time_sub env;
     time_div := time_div env;
     sample_to_program := fun _ _ => None;
     program_to_function := program_to_function env;
     submit_raises := submit_raises env;
     future_result := future_result env;
     evaluate_program_record_time := evaluate_program_record_time env;
     register_function_raises := register_function_raises env;
     profiler_register_raises := profiler_register_raises env;
     profiler_register_db_raises := profiler_register_db_raises env |}.

(** Collaborators whose store raises on every registration. *)
Definition failing_store_env : @Env string Z Z :=
  {| get_prompt := get_prompt env;
     draw_samples := draw_samples env;
     clock := clock env;
     time_sub := time_sub env;
     time_div := time_div env;
     sample_to_program := sample_to_program env;
     program_to_function := program_to_function env;
     submit_raises := submit_raises env;
     future_result := future_result env;
     evaluate_program_record_time := evaluate_program_record_time env;
     register_function_raises := fun _ _ _ _ =>
       Some (OtherException "ValueError");
     profiler_register_raises := profiler_register_raises env;
     profiler_register_db_raises := profiler_register_db_raises env |}.

(** A sampler that answers no candidate at all until a traceback has
    been printed, and answers afterwards. *)
Definition empty_first (samples : list string) (h : list (@Event string Z Z))
    (prompts : list string) : Exn + list string :=
  if printed_exc h then answer samples h prompts else inr [].

(** One sampler running an iteration and returning, then joined. *)
Definition one_sampler_schedule : list Action :=
  [RunMain;
   RunWorker 0; RunWorker 0; RunWorker 0; RunWorker 0; RunWorker 0;
   RunMain; RunMain; RunMain].

End Scenario.

(** * Properties *)
Section Properties.

Context {Program Score Time : Type}.
Variable env : @Env Program Score Time.
Variable cfg : @Config Program Score Time.

Local Abbreviation Event := (@Event Program Score Time).
Local Abbreviation State := (@State Program Score Time).
Local Abbreviation M := (@M Program Score Time).
Local Abbreviation System := (@System Program Score Time).
Local Abbreviation Worker := (@Worker Program Score Time).
Local Abbreviation Item := (@Item Program Score Time).

(** ** The monad *)

Lemma bind_inr {A B} (m : M A) (k : A -> M B) st st1 a :
  m st = (st1, inr a) -> bind m k st = k a st1.
Proof. unfold bind. intros ->. reflexivity. Qed.

Lemma bind_inl {A B} (m : M A) (k : A -> M B) st st1 e :
  m st = (st1, inl e) -> bind m k st = (st1, inl e).
Proof. unfold bind. intros ->. reflexivity. Qed.

Lemma bind_cases {A B} (m : M A) (k : A -> M B) st st' r :
  bind m k st = (st', r) ->
  (exists st1 a, m st = (st1, inr a) /\ k a st1 = (st', r)) \/
  (exists e, m st = (st', inl e) /\ r = inl e).
Proof.
  unfold bind. destruct (m st) as [st1 [e|a]]; intros H.
  - right. exists e. by inversion H.
  - left. by exists st1, a.
Qed.

(** ** Growth of the log *)

Lemma grows_by_refl P (st : State) : grows_by P st st.
Proof. exists []. by rewrite app_nil_r. Qed.

Lemma grows_by_trans P (st1 st2 st3 : State) :
  grows_by P st1 st2 -> grows_by P st2 st3 -> grows_by P st1 st3.
Proof.
  intros (e1 & H1 & F1) (e2 & H2 & F2). exists (e1 ++ e2). split.
  - by rewrite H2, H1, app_assoc.
  - by apply Forall_app.
Qed.

Lemma grows_by_log (P : Event -> Prop) ev (st : State) :
  P ev -> grows_by P st (log ev st).
Proof. intros H. exists [ev]. split; [done | by constructor]. Qed.

Lemma grows_by_weaken (P Q : Event -> Prop) (st st' : State) :
  (forall ev, P ev -> Q ev) -> grows_by P st st' -> grows_by Q st st'.
Proof.
  intros HPQ (evs & H & F). exists evs. split; [done|].
  eapply Forall_impl; eauto.
Qed.

Lemma grows_by_same_trace P (st st' : State) :
  trace st' = trace st -> grows_by P st st'.
Proof. intros H. exists []. by rewrite app_nil_r. Qed.

Lemma grows_by_Forall (P : Event -> Prop) (st st' : State) :
  grows_by P st st' -> Forall P (trace st) -> Forall P (trace st').
Proof. intros (evs & -> & F) H. by apply Forall_app. Qed.

Lemma emits_ret {A} P (a : A) : emits P (ret a : M A).
Proof. intros st. apply grows_by_refl. Qed.

Lemma emits_raise {A} P e : emits P (raise e : M A).
Proof. intros st. apply grows_by_refl. Qed.

Lemma emits_bind {A B} P (m : M A) (k : A -> M B) :
  emits P m -> (forall a, emits P (k a)) -> emits P (bind m k).
Proof.
  intros Hm Hk st. unfold bind. specialize (Hm st).
  destruct (m st) as [st1 [e|a]]; simpl in *; [done|].
  eapply grows_by_trans; [exact Hm | apply Hk].
Qed.

Lemma emits_call {A} (P : Event -> Prop) ev (answer : list Event -> Exn + A) :
  P ev -> emits P (call ev answer).
Proof. intros H st. by apply grows_by_log. Qed.

Lemma emits_time_time P : emits P (time_time env).
Proof. intros st. apply grows_by_refl. Qed.

Lemma emits_submit P program : emits P (submit env program).
Proof.
  intros st. unfold submit.
  destruct (submit_raises env (trace st) program); apply grows_by_same_trace; done.
Qed.

Lemma emits_submit_all P programs : emits P (submit_all env programs).
Proof.
  induction programs as [|p rest IH]; simpl.
  - apply emits_ret.
  - apply emits_bind; [apply emits_submit|]. intros f.
    apply emits_bind; [exact IH|]. intros fs. apply emits_ret.
Qed.

Lemma emits_result P f : emits P (result env f).
Proof.
  intros st. unfold result. destruct (pool st !! f); apply grows_by_refl.
Qed.

Lemma emits_collect P futures : emits P (collect env futures).
Proof.
  induction futures as [|f rest IH]; simpl.
  - apply emits_ret.
  - apply emits_bind; [apply emits_result|]. intros r.
    apply emits_bind; [exact IH|]. intros rs. apply emits_ret.
Qed.

Lemma emits_store_tot P v : emits P (store_tot v : M unit).
Proof. intros st. by apply grows_by_same_trace. Qed.

Lemma emits_sample_batch : emits worker_event (sample_batch env cfg).
Proof.
  unfold sample_batch.
  apply emits_bind; [by apply emits_call|]. intros prompt.
  apply emits_bind; [apply emits_time_time|]. intros t0.
  apply emits_bind; [by apply emits_call|]. intros sampled.
  apply emits_bind; [apply emits_time_time|]. intros t1.
  apply emits_bind.
  { destruct (length sampled =? 0)%nat; [apply emits_raise | apply emits_ret]. }
  intros avg.
  apply emits_bind; [apply emits_submit_all|]. intros futures.
  apply emits_bind; [apply emits_collect|]. intros rs. apply emits_ret.
Qed.

Lemma emits_register_sample loaded island avg item :
  emits worker_event (register_sample env cfg loaded island avg item).
Proof.
  destruct item as [[program sc] eval_time]. unfold register_sample.
  apply emits_bind; [apply emits_store_tot|]. intros _.
  destruct (program_to_function env program) as [f|]; [|apply emits_ret].
  apply emits_bind.
  { destruct sc; [by apply emits_call | apply emits_ret]. }
  intros _. destruct (profiler cfg) as [kind|]; [|apply emits_ret].
  apply emits_bind; [by apply emits_call|]. intros _.
  destruct kind; [by apply emits_call | apply emits_ret].
Qed.

Lemma emits_loop_item island avg item :
  emits worker_event (loop_item env cfg island avg item).
Proof. intros st. apply emits_register_sample. Qed.

Lemma emits_register_all island avg items :
  emits worker_event (register_all env cfg island avg items).
Proof.
  induction items as [|item rest IH]; simpl.
  - apply emits_ret.
  - apply emits_bind; [apply emits_loop_item|]. intros _. exact IH.
Qed.

Lemma emits_try_block : emits worker_event (try_block env cfg).
Proof.
  unfold try_block. apply emits_bind; [apply emits_sample_batch|].
  intros b. apply emits_register_all.
Qed.

Lemma handle_grows (r : State * (Exn + unit)) :
  grows_by worker_event r.1 (handle cfg r).1.
Proof.
  destruct r as [st [e|u]]; simpl; [|apply grows_by_refl].
  destruct e; simpl; try apply grows_by_refl;
    (destruct (debug_mode cfg); simpl; [|apply grows_by_refl];
     eapply grows_by_trans; apply grows_by_log; done).
Qed.

Lemma leave_grows (r : State * Flow) :
  grows_by worker_event r.1 (leave r).1.
Proof.
  destruct r as [st [| |e]]; simpl; try apply grows_by_refl.
  by apply grows_by_log.
Qed.

Lemma finish_item_grows loaded island avg item rest (st : State) :
  grows_by worker_event st
    (finish_item env cfg loaded island avg item rest st).1.
Proof.
  unfold finish_item.
  pose proof (emits_register_sample loaded island avg item st) as H.
  destruct (register_sample env cfg loaded island avg item st) as [st' [e|u]];
    simpl in *; [|done].
  eapply grows_by_trans; [exact H|].
  eapply grows_by_trans; [apply (handle_grows (st', inl e)) | apply leave_grows].
Qed.

Lemma worker_step_grows atomic w (st : State) :
  grows_by worker_event st (worker_step env cfg atomic w st).1.
Proof.
  destruct w; simpl; try apply grows_by_refl.
  - destruct (budget_left cfg st); [|by apply grows_by_log].
    pose proof (emits_sample_batch st) as H.
    destruct (sample_batch env cfg st) as [st' [e|b]]; simpl in *; [|done].
    eapply grows_by_trans; [exact H|].
    eapply grows_by_trans; [apply (handle_grows (st', inl e)) | apply leave_grows].
  - destruct atomic; [apply finish_item_grows | apply grows_by_refl].
  - apply finish_item_grows.
Qed.

Lemma main_step_grows (s : System) :
  grows_by main_event (shared s) (shared (main_step cfg s)).
Proof.
  unfold main_step. destruct (main_thread s) as [i|i| |e]; try apply grows_by_refl.
  - destruct (i <? nworkers cfg)%nat; simpl; [by apply grows_by_log | apply grows_by_refl].
  - destruct (i <? nworkers cfg)%nat; simpl.
    + destruct (workers s !! i) as [w|]; [|apply grows_by_refl].
      destruct (terminated w); apply grows_by_refl.
    + destruct (profiler cfg); [by apply grows_by_log | apply grows_by_refl].
Qed.

Lemma emits_seed_and_register : emits startup_event (seed_and_register env cfg).
Proof.
  unfold seed_and_register. destruct (resume_mode cfg); [apply emits_ret|].
  apply emits_bind; [by apply emits_call|]. intros [sc eval_time].
  destruct sc as [s|]; [|apply emits_raise].
  apply emits_bind; [by apply emits_call|]. intros _.
  destruct (profiler cfg); [by apply emits_call | apply emits_ret].
Qed.

Lemma worker_event_scored (ev : Event) : worker_event ev -> scored ev.
Proof. destruct ev as [| | |f i [s|]| | | | | | |]; simpl; tauto. Qed.

Lemma main_event_scored (ev : Event) : main_event ev -> scored ev.
Proof. destruct ev as [| | |f i [s|]| | | | | | |]; simpl; tauto. Qed.

Lemma startup_event_scored (ev : Event) : startup_event ev -> scored ev.
Proof. destruct ev as [| | |f [i|] [s|]| | | | | | |]; simpl; tauto. Qed.

Lemma step_grows_scored atomic (s : System) a :
  grows_by scored (shared s) (shared (step env cfg atomic s a)).
Proof.
  destruct a as [|i]; simpl.
  - eapply grows_by_weaken; [apply main_event_scored | apply main_step_grows].
  - destruct (workers s !! i) as [w|]; [|apply grows_by_refl].
    pose proof (worker_step_grows atomic w (shared s)) as H.
    destruct (worker_step env cfg atomic w (shared s)) as [st' w']; simpl in *.
    eapply grows_by_weaken; [apply worker_event_scored | exact H].
Qed.

Lemma exec_grows_scored atomic sched (s : System) :
  grows_by scored (shared s) (shared (exec env cfg atomic sched s)).
Proof.
  revert s. induction sched as [|a sched IH]; intros s; simpl.
  - apply grows_by_refl.
  - eapply grows_by_trans; [apply step_grows_scored | apply IH].
Qed.

Lemma boot_grows_startup :
  grows_by startup_event init_state (shared (boot env cfg)).
Proof.
  unfold boot. pose proof (emits_seed_and_register init_state) as H.
  destruct (seed_and_register env cfg init_state) as [st [e|u]]; exact H.
Qed.

Lemma run_trace_scored atomic sched :
  Forall scored (trace (shared (run env cfg atomic sched))).
Proof.
  unfold run. eapply grows_by_Forall; [apply exec_grows_scored|].
  eapply grows_by_Forall.
  - eapply grows_by_weaken; [apply startup_event_scored | apply boot_grows_startup].
  - constructor.
Qed.

(** C1: whatever the schedule, every call of [register_function] that
    [run] or a sampler thread makes on the population store passes a
    score that is not [None]. *)
Theorem registered_score_not_none atomic sched f island sc :
  (f, island, sc) ∈ registrations (trace (shared (run env cfg atomic sched))) ->
  sc <> None.
Proof.
  intros Hin. unfold registrations in Hin.
  apply list_elem_of_omap in Hin as (ev & Hev & Heq).
  pose proof (run_trace_scored atomic sched) as HF.
  apply list_elem_of_In in Hev.
  rewrite Forall_forall in HF. specialize (HF ev Hev).
  destruct ev; try discriminate. inversion Heq; subst. by destruct sc.
Qed.

(** ** The loop body, lines 155-176 *)

Lemma register_sample_counter loaded island avg item (st : State) :
  tot_sample_nums (register_sample env cfg loaded island avg item st).1
  = loaded + 1.
Proof.
  destruct item as [[program sc] eval_time].
  unfold register_sample, bind, store_tot, call, ret; simpl.
  repeat case_match; simplify_eq/=; done.
Qed.

Lemma register_sample_pool loaded island avg item (st : State) :
  pool (register_sample env cfg loaded island avg item st).1 = pool st.
Proof.
  destruct item as [[program sc] eval_time].
  unfold register_sample, bind, store_tot, call, ret; simpl.
  repeat case_match; simplify_eq/=; done.
Qed.

Lemma loop_item_counter island avg item (st : State) :
  tot_sample_nums (loop_item env cfg island avg item st).1
  = tot_sample_nums st + 1.
Proof. apply register_sample_counter. Qed.

Lemma register_all_counter island avg items (st st' : State) :
  register_all env cfg island avg items st = (st', inr tt) ->
  tot_sample_nums st' = tot_sample_nums st + Z.of_nat (length items).
Proof.
  revert st. induction items as [|item rest IH]; intros st; simpl.
  - unfold ret. intros [= <-]. lia.
  - intros H. apply bind_cases in H as [(st1 & [] & H1 & H2)|(e & _ & [=])].
    apply IH in H2. rewrite H2.
    pose proof (loop_item_counter island avg item st) as Hc.
    rewrite H1 in Hc. simpl in Hc. lia.
Qed.

Lemma register_all_pool island avg items (st : State) :
  pool (register_all env cfg island avg items st).1 = pool st.
Proof.
  revert st. induction items as [|item rest IH]; intros st; simpl; [done|].
  unfold bind.
  pose proof (register_sample_pool (tot_sample_nums st) island avg item st) as Hp.
  unfold loop_item at 1.
  destruct (register_sample env cfg (tot_sample_nums st) island avg item st)
    as [st1 [e|u]]; simpl in *; [done|].
  by rewrite IH.
Qed.

(** One pass of the loop body on a triple whose program converts back
    to a function, when the store does not raise: the function is handed
    to the profiler once, carrying its score, the average sampling time
    and its evaluation time, whether its score is [None] or not; with
    score [None] nothing is registered in the store. *)
Lemma register_sample_reported
    loaded island avg program sc eval_time f kind (st : State) :
  program_to_function env program = Some f ->
  profiler cfg = Some kind ->
  sc = None \/ register_function_raises env (trace st) f island sc = None ->
  exists evs,
    trace (register_sample env cfg loaded island avg
             (program, sc, eval_time) st).1 = trace st ++ evs /\
    reports evs = [annotate f sc (Some avg) (Some eval_time)] /\
    registrations evs = match sc with
                        | Some _ => [(f, island, sc)]
                        | None => []
                        end.
Proof.
  intros Hf Hprof Hreg.
  unfold register_sample, bind, store_tot, call, ret, log; simpl.
  rewrite Hf, Hprof.
  destruct sc as [s|]; simpl.
  - destruct Hreg as [|Hreg]; [done|]. rewrite Hreg. simpl.
    destruct (raising (profiler_register_raises env _ _)), kind; simpl;
      eexists; (split; [rewrite <- ?app_assoc; reflexivity | done]).
  - destruct (raising (profiler_register_raises env _ _)), kind; simpl;
      eexists; (split; [rewrite <- ?app_assoc; reflexivity | done]).
Qed.

(** ** Submission and collection, lines 143-150 *)

Lemma submit_all_inr programs (st st' : State) futures :
  submit_all env programs st = (st', inr futures) ->
  st' = mkState (tot_sample_nums st) (pool st ++ programs) (trace st) /\
  futures = seq (length (pool st)) (length programs).
Proof.
  revert st st' futures.
  induction programs as [|p rest IH]; intros st st' futures H; simpl in H.
  - unfold ret in H. inversion H; subst. destruct st'; simpl.
    by rewrite app_nil_r.
  - apply bind_cases in H as [(st1 & f & H1 & H2)|(e & _ & [=])].
    apply bind_cases in H2 as [(st2 & fs & H2 & H3)|(e & _ & [=])].
    unfold ret in H3. inversion H3; subst. clear H3.
    unfold submit in H1.
    destruct (submit_raises env (trace st) p); [done|].
    inversion H1; subst. clear H1.
    apply IH in H2 as [-> ->]. simpl. rewrite <- app_assoc. simpl.
    split; [done|]. rewrite length_app. simpl.
    by replace (length (pool st) + 1)%nat with (S (length (pool st))) by lia.
Qed.

Lemma submit_all_effect programs (st : State) :
  exists k,
    (submit_all env programs st).1
    = mkState (tot_sample_nums st) (pool st ++ take k programs) (trace st).
Proof.
  revert st. induction programs as [|p rest IH]; intros st; simpl.
  - exists 0%nat. destruct st; simpl. by rewrite app_nil_r.
  - unfold bind, submit.
    destruct (submit_raises env (trace st) p); simpl.
    + exists 0%nat. destruct st; simpl. by rewrite app_nil_r.
    + match goal with
      | |- context [submit_all env rest ?s] => destruct (IH s) as [k Hk]
      end.
      exists (S k). simpl in *.
      destruct (submit_all env rest _) as [st2 [e|fs]]; simpl in *;
        subst st2; simpl; by rewrite <- app_assoc.
Qed.

Lemma collect_state futures (st : State) : (collect env futures st).1 = st.
Proof.
  induction futures as [|f rest IH]; simpl; [done|].
  unfold bind, result.
  destruct (pool st !! f) as [p|]; [|done].
  destruct (future_result env f p) as [e|r]; [done|].
  destruct (collect env rest st) as [st1 [e|rs]]; simpl in *; done.
Qed.

Lemma collect_inr futures (st st' : State) rs :
  collect env futures st = (st', inr rs) ->
  Forall2 (fun f r => exists p, pool st !! f = Some p /\
                                future_result env f p = inr r) futures rs.
Proof.
  revert st' rs. induction futures as [|f rest IH]; intros st' rs H; simpl in H.
  - unfold ret in H. inversion H. constructor.
  - apply bind_cases in H as [(st1 & r & H1 & H2)|(e & _ & [=])].
    apply bind_cases in H2 as [(st2 & rs' & H2 & H3)|(e & _ & [=])].
    unfold ret in H3. inversion H3; subst. clear H3.
    unfold result in H1. destruct (pool st !! f) as [p|] eqn:Hp; [|done].
    inversion H1; subst. constructor; [by exists p|]. by eapply IH.
Qed.

Lemma zip3_lookup {A B C} (l1 : list A) (l2 : list B) (l3 : list C) i a b c :
  l1 !! i = Some a -> l2 !! i = Some b -> l3 !! i = Some c ->
  zip3 l1 l2 l3 !! i = Some (a, b, c).
Proof.
  intros H1 H2 H3. unfold zip3.
  rewrite !lookup_zip_with, H1, H2, H3. done.
Qed.

Lemma zip3_length {A B C} (l1 : list A) (l2 : list B) (l3 : list C) :
  length l2 = length l1 -> length l3 = length l1 ->
  length (zip3 l1 l2 l3) = length l1.
Proof. intros H2 H3. unfold zip3. rewrite !length_zip_with. lia. Qed.

Lemma collected_in_submission_order
    programs (st st1 st1' st2 : State) futures scores_times :
  submit_all env programs st = (st1, inr futures) ->
  pool st1 `prefix_of` pool st1' ->
  collect env futures st1' = (st2, inr scores_times) ->
  length scores_times = length programs /\
  forall i program,
    programs !! i = Some program ->
    exists r,
      futures !! i = Some (length (pool st) + i)%nat /\
      pool st1' !! (length (pool st) + i)%nat = Some program /\
      future_result env (length (pool st) + i)%nat program = inr r /\
      scores_times !! i = Some r.
Proof.
  intros Hsub [extra Hext] Hcol.
  apply submit_all_inr in Hsub as [-> ->]. simpl in Hext.
  apply collect_inr in Hcol.
  pose proof Hcol as Hlen. apply Forall2_length in Hlen.
  rewrite length_seq in Hlen.
  split; [done|].
  intros i program Hi.
  pose proof (lookup_lt_Some _ _ _ Hi) as Hlt.
  assert (seq (length (pool st)) (length programs) !! i
          = Some (length (pool st) + i)%nat) as Hf by by apply lookup_seq.
  destruct (Forall2_lookup_l _ _ _ _ _ Hcol Hf) as (r & Hr & p & Hp & Hres).
  assert (pool st1' !! (length (pool st) + i)%nat = Some program) as Hp'.
  { rewrite Hext. rewrite lookup_app_l.
    - rewrite lookup_app_r by lia.
      by replace (length (pool st) + i - length (pool st))%nat with i by lia.
    - rewrite length_app. lia. }
  rewrite Hp' in Hp. inversion Hp; subst p.
  exists r. done.
Qed.


(** ** Sampling and evaluation, lines 126-153 *)

Lemma convert_samples_omap sampled :
  convert_samples env cfg sampled
  = omap (fun func => sample_to_program env func (template_program cfg)) sampled.
Proof.
  induction sampled as [|func rest IH]; simpl; [done|].
  destruct (sample_to_program env func (template_program cfg)); by rewrite IH.
Qed.

Lemma convert_samples_length sampled :
  (length (convert_samples env cfg sampled) <= length sampled)%nat.
Proof.
  induction sampled as [|func rest IH]; simpl; [done|].
  destruct (sample_to_program env func (template_program cfg)); simpl; lia.
Qed.

Lemma convert_samples_none sampled :
  (forall func, func ∈ sampled ->
     sample_to_program env func (template_program cfg) = None) ->
  convert_samples env cfg sampled = [].
Proof.
  induction sampled as [|func rest IH]; intros H; simpl; [done|].
  rewrite (H func) by apply list_elem_of_here.
  apply IH. intros g Hg. apply H. by apply list_elem_of_further.
Qed.

Lemma sample_batch_inr (st st' : State) b :
  sample_batch env cfg st = (st', inr b) ->
  exists prompt sampled,
    get_prompt env (trace st) = inr prompt /\
    draw_samples env (trace st ++ [EvGetPrompt]) (prompt_contents cfg prompt)
    = inr sampled /\
    sampled <> [] /\
    st' = sampled_state cfg st prompt (convert_samples env cfg sampled) /\
    batch_island b = island_id prompt /\
    batch_avg b
    = time_div env
        (time_sub env (clock env (trace st') ) (clock env (trace st ++ [EvGetPrompt])))
        (length sampled) /\
    length (batch_items b) = length (convert_samples env cfg sampled) /\
    forall i p,
      convert_samples env cfg sampled !! i = Some p ->
      exists r,
        future_result env (length (pool st) + i)%nat p = inr r /\
        batch_items b !! i = Some (p, r.1, r.2).
Proof.
  unfold sample_batch. intros H.
  apply bind_cases in H as [(st1 & prompt & H1 & H)|(e & _ & [=])].
  unfold call in H1. inversion H1 as [[Hst1 Hprompt]]. clear H1.
  apply bind_cases in H as [(st2 & t0 & H2 & H)|(e & _ & [=])].
  unfold time_time in H2. inversion H2 as [[Hst2 Ht0]]. clear H2.
  apply bind_cases in H as [(st3 & sampled & H3 & H)|(e & _ & [=])].
  unfold call in H3. inversion H3 as [[Hst3 Hsampled]]. clear H3.
  apply bind_cases in H as [(st4 & t1 & H4 & H)|(e & _ & [=])].
  unfold time_time in H4. inversion H4 as [[Hst4 Ht1]]. clear H4.
  apply bind_cases in H as [(st5 & avg & H5 & H)|(e & _ & [=])].
  destruct (length sampled =? 0)%nat eqn:Hlen; [done|].
  unfold ret in H5. inversion H5 as [[Hst5 Havg]]. clear H5.
  apply bind_cases in H as [(st6 & futures & H6 & H)|(e & _ & [=])].
  apply bind_cases in H as [(st7 & rs & H7 & H)|(e & _ & [=])].
  unfold ret in H. inversion H as [[Hst7 Hb]]. clear H.
  pose proof (collect_state futures st6) as Hcs. rewrite H7 in Hcs.
  simpl in Hcs. subst st7.
  destruct (collected_in_submission_order _ _ _ _ _ _ _
              H6 (reflexivity _) H7) as [Hlenrs Hres].
  apply submit_all_inr in H6 as [Hst6 Hfutures].
  subst st1 st2 st3 st4 st5. simpl in *.
  subst st6 b. simpl in *.
  exists prompt, sampled.
  split; [done|]. split; [done|].
  split. { intros ->. done. }
  split. { rewrite Hcs. unfold sampled_state. by rewrite <- app_assoc. }
  split; [done|].
  split. { rewrite Hcs. simpl. by rewrite <- Havg, <- Ht1, <- Ht0. }
  split. { apply zip3_length; by rewrite length_fmap. }
  intros i p Hi. destruct (Hres i p Hi) as (r & Hf & Hp & Hr & Hrs).
  exists r. split; [done|].
  apply zip3_lookup; [done| |]; by rewrite list_lookup_fmap, Hrs.
Qed.

Lemma sample_batch_counter (st : State) :
  tot_sample_nums (sample_batch env cfg st).1 = tot_sample_nums st.
Proof.
  unfold sample_batch, bind, call, time_time, ret, raise. simpl.
  destruct (get_prompt env (trace st)) as [e|prompt]; [done|].
  destruct (draw_samples env _ _) as [e|sampled]; [done|].
  destruct (length sampled =? 0)%nat; [done|].
  match goal with
  | |- context [submit_all env ?ps ?s] =>
      destruct (submit_all_effect ps s) as [k Hk];
      destruct (submit_all env ps s) as [st6 [e|futures]]
  end; simpl in *; subst st6; [done|].
  match goal with
  | |- context [collect env ?fs ?s] =>
      pose proof (collect_state fs s) as Hc;
      destruct (collect env fs s) as [st7 [e|rs]]
  end; simpl in *; by subst st7.
Qed.

Lemma sample_batch_zero_division (st : State) prompt :
  get_prompt env (trace st) = inr prompt ->
  draw_samples env (trace st ++ [EvGetPrompt]) (prompt_contents cfg prompt)
  = inr [] ->
  sample_batch env cfg st = (sampled_state cfg st prompt [], inl ZeroDivisionError).
Proof.
  intros Hp Hd. unfold sample_batch, bind, call, time_time, ret, raise. simpl.
  rewrite Hp, Hd. simpl. unfold sampled_state, log. simpl.
  by rewrite app_nil_r, <- app_assoc.
Qed.

Lemma sample_batch_no_program (st : State) prompt sampled :
  get_prompt env (trace st) = inr prompt ->
  draw_samples env (trace st ++ [EvGetPrompt]) (prompt_contents cfg prompt)
  = inr sampled ->
  sampled <> [] ->
  convert_samples env cfg sampled = [] ->
  exists avg,
    sample_batch env cfg st
    = (sampled_state cfg st prompt [], inr (mkBatch (island_id prompt) avg [])).
Proof.
  intros Hp Hd Hne Hc. unfold sample_batch, bind, call, time_time, ret, raise.
  simpl. rewrite Hp, Hd. simpl.
  destruct sampled as [|func rest]; [done|]. simpl length. simpl Nat.eqb.
  cbv iota. rewrite Hc. simpl. eexists. unfold sampled_state, log. simpl.
  by rewrite app_nil_r, <- app_assoc.
Qed.

Lemma batch_items_programs (st st' : State) b sampled :
  sample_batch env cfg st = (st', inr b) ->
  draw_samples env (trace st ++ [EvGetPrompt])
    (match get_prompt env (trace st) with
     | inr prompt => prompt_contents cfg prompt
     | inl _ => []
     end) = inr sampled ->
  (fun item : Item => item.1.1) <$> batch_items b
  = convert_samples env cfg sampled.
Proof.
  intros H Hd.
  apply sample_batch_inr in H
    as (prompt & sampled' & Hp & Hd' & _ & _ & _ & _ & Hlen & Hitems).
  rewrite Hp in Hd. rewrite Hd in Hd'. inversion Hd'; subst sampled'.
  apply list_eq. intros i. rewrite list_lookup_fmap.
  destruct (convert_samples env cfg sampled !! i) as [p|] eqn:Hi.
  - destruct (Hitems i p Hi) as (r & _ & Hr). unfold Item in *.
    by rewrite Hr.
  - apply lookup_ge_None in Hi. rewrite <- Hlen in Hi.
    apply lookup_ge_None in Hi. unfold Item in *. by rewrite Hi.
Qed.

Lemma registrations_app (tr1 tr2 : list Event) :
  registrations (tr1 ++ tr2) = registrations tr1 ++ registrations tr2.
Proof. apply omap_app. Qed.

Lemma register_sample_registered loaded island avg program sc eval_time
    (st : State) :
  exists evs,
    trace (register_sample env cfg loaded island avg
             (program, sc, eval_time) st).1 = trace st ++ evs /\
    forall f i s,
      (f, i, s) ∈ registrations evs -> program_to_function env program = Some f.
Proof.
  unfold register_sample, bind, store_tot, call, ret, log; simpl.
  repeat case_match; simplify_eq/=;
    eexists;
    (split;
     [first [ symmetry; apply app_nil_r
            | rewrite <- ?app_assoc; reflexivity ]
     | simpl; intros f' i' s' Hin;
       repeat (apply elem_of_cons in Hin as [Hin|Hin]; [by inversion Hin|]);
       by apply elem_of_nil in Hin ]).
Qed.

Lemma register_all_registered island avg items (st : State) :
  exists evs,
    trace (register_all env cfg island avg items st).1 = trace st ++ evs /\
    forall f i s,
      (f, i, s) ∈ registrations evs ->
      exists item, item ∈ items /\ program_to_function env item.1.1 = Some f.
Proof.
  revert st. induction items as [|item rest IH]; intros st; simpl.
  - exists []. split; [by rewrite app_nil_r|]. simpl. intros ??? Hin.
    by apply elem_of_nil in Hin.
  - unfold bind, loop_item at 1. destruct item as [[p sc] t].
    destruct (register_sample_registered (tot_sample_nums st) island avg
                p sc t st) as (e1 & H1 & R1).
    destruct (register_sample env cfg (tot_sample_nums st) island avg
                (p, sc, t) st) as [st1 [e|u]]; simpl in *.
    + exists e1. split; [done|]. intros f i s Hin. exists (p, sc, t).
      split; [apply list_elem_of_here | by eapply R1].
    + destruct (IH st1) as (e2 & H2 & R2). exists (e1 ++ e2). split.
      * by rewrite H2, H1, app_assoc.
      * intros f i s Hin. rewrite registrations_app in Hin.
        apply elem_of_app in Hin as [Hin|Hin].
        -- exists (p, sc, t). split; [apply list_elem_of_here | by eapply R1].
        -- destruct (R2 f i s Hin) as (item & Hitem & Hf).
           exists item. split; [by apply list_elem_of_further | done].
Qed.

(** C7: a candidate that [sample_to_program] rejects goes no further.
    The programs submitted to the executor are the successful
    conversions, in order; an iteration that runs to its end has counted
    as many samples as there were successful conversions, and every
    function it registered comes from a candidate that converted; and
    when no candidate converts the iteration ends without an exception
    and without submitting, counting or registering anything. *)
Theorem failed_conversion_is_dropped (st : State) prompt sampled :
  get_prompt env (trace st) = inr prompt ->
  draw_samples env (trace st ++ [EvGetPrompt]) (prompt_contents cfg prompt)
  = inr sampled ->
  sampled <> [] ->
  let converted :=
    omap (fun func => sample_to_program env func (template_program cfg))
      sampled in
  (forall st1 b,
     sample_batch env cfg st = (st1, inr b) ->
     pool st1 = pool st ++ converted /\
     (fun item : Item => item.1.1) <$> batch_items b = converted) /\
  (forall st',
     try_block env cfg st = (st', inr tt) ->
     tot_sample_nums st' = tot_sample_nums st + Z.of_nat (length converted) /\
     pool st' = pool st ++ converted /\
     exists evs,
       trace st' = trace st ++ evs /\
       forall f i s,
         (f, i, s) ∈ registrations evs ->
         exists func p,
           func ∈ sampled /\
           sample_to_program env func (template_program cfg) = Some p /\
           program_to_function env p = Some f) /\
  (converted = [] ->
   exists st',
     try_block env cfg st = (st', inr tt) /\
     tot_sample_nums st' = tot_sample_nums st /\
     pool st' = pool st /\
     registrations (trace st') = registrations (trace st) /\
     reports (trace st') = reports (trace st)).
Proof.
  intros Hp Hd Hne converted.
  assert (forall st1 b,
            sample_batch env cfg st = (st1, inr b) ->
            st1 = sampled_state cfg st prompt converted /\
            (fun item : Item => item.1.1) <$> batch_items b = converted)
    as Hbatch.
  { intros st1 b H. split.
    - apply sample_batch_inr in H
        as (prompt' & sampled' & Hp' & Hd' & _ & -> & _).
      rewrite Hp in Hp'. inversion Hp'; subst prompt'.
      rewrite Hd in Hd'. inversion Hd'; subst sampled'.
      unfold converted. by rewrite convert_samples_omap.
    - unfold converted. rewrite <- convert_samples_omap.
      eapply batch_items_programs; [exact H|]. by rewrite Hp. }
  split; [|split].
  - intros st1 b H. destruct (Hbatch st1 b H) as [-> Hitems]. done.
  - intros st' H. unfold try_block in H.
    apply bind_cases in H as [(st1 & b & H1 & H2)|(e & _ & [=])].
    destruct (Hbatch st1 b H1) as [Hst1 Hitems].
    pose proof (register_all_counter _ _ _ _ _ H2) as Hc.
    pose proof (register_all_pool (batch_island b) (batch_avg b)
                  (batch_items b) st1) as Hpool.
    destruct (register_all_registered (batch_island b) (batch_avg b)
                (batch_items b) st1) as (evs & Htr & Hreg).
    rewrite H2 in Hpool, Htr. simpl in Hpool, Htr.
    rewrite <- Hitems at 1. rewrite length_fmap.
    rewrite Hst1 in Hc, Hpool, Htr. simpl in Hc, Hpool, Htr.
    split; [done|]. split; [done|].
    eexists. split; [rewrite Htr, <- app_assoc; reflexivity|].
    intros f i s Hin. rewrite registrations_app in Hin. simpl in Hin.
    destruct (Hreg f i s Hin) as (item & Hitem & Hf).
    assert (item.1.1 ∈ converted) as Hconv.
    { rewrite <- Hitems. apply list_elem_of_fmap. by exists item. }
    unfold converted in Hconv.
    apply list_elem_of_omap in Hconv as (func & Hfunc & Hsp).
    by exists func, (item.1.1).
  - intros Hnone. unfold converted in Hnone.
    rewrite <- convert_samples_omap in Hnone.
    destruct (sample_batch_no_program st prompt sampled Hp Hd Hne Hnone)
      as [avg Hsb].
    exists (sampled_state cfg st prompt []). unfold try_block.
    rewrite (bind_inr _ _ _ _ _ Hsb). simpl. unfold ret.
    split; [done|]. split; [done|]. split; [by rewrite app_nil_r|].
    split.
    + by rewrite registrations_app, app_nil_r.
    + unfold reports. by rewrite omap_app, app_nil_r.
Qed.

(** When the sampler answers an empty list, line 133 divides by
    zero.  The [try] block raises [ZeroDivisionError] before anything is
    submitted, counted or registered, and the [except Exception] clause
    takes over: with [debug_mode] the traceback is printed and [exit()]
    is called, without it the iteration is skipped.  The thread that
    runs the iteration does so in one step from the loop test. *)
Lemma empty_sample_list_divides_by_zero (st : State) prompt :
  get_prompt env (trace st) = inr prompt ->
  draw_samples env (trace st ++ [EvGetPrompt]) (prompt_contents cfg prompt)
  = inr [] ->
  exists st1,
    try_block env cfg st = (st1, inl ZeroDivisionError) /\
    tot_sample_nums st1 = tot_sample_nums st /\
    pool st1 = pool st /\
    registrations (trace st1) = registrations (trace st) /\
    iteration env cfg st
    = (if debug_mode cfg
       then (log EvExit (log EvPrintExc st1), Unwind SystemExit)
       else (st1, Continue)) /\
    tot_sample_nums (iteration env cfg st).1 = tot_sample_nums st /\
    registrations (trace (iteration env cfg st).1) = registrations (trace st) /\
    forall atomic,
      budget_left cfg st = true ->
      worker_step env cfg atomic WAtTest st
      = (if debug_mode cfg
         then (log EvExit (log EvPrintExc st1), WUnwound SystemExit)
         else (st1, WAtTest)).
Proof.
  intros Hp Hd. exists (sampled_state cfg st prompt []).
  pose proof (sample_batch_zero_division st prompt Hp Hd) as Hsb.
  assert (try_block env cfg st
          = (sampled_state cfg st prompt [], inl ZeroDivisionError)) as Htry.
  { unfold try_block. by rewrite (bind_inl _ _ _ _ _ Hsb). }
  assert (registrations (trace (sampled_state cfg st prompt []))
          = registrations (trace st)) as Hreg.
  { simpl. by rewrite registrations_app, app_nil_r. }
  split; [done|]. split; [done|]. split; [simpl; by rewrite app_nil_r|].
  split; [done|].
  assert (forall atomic,
            budget_left cfg st = true ->
            worker_step env cfg atomic WAtTest st
            = leave (handle cfg (sampled_state cfg st prompt [],
                                 inl ZeroDivisionError))) as Hstep.
  { intros atomic Hb. cbn [worker_step]. by rewrite Hb, Hsb. }
  unfold iteration. rewrite Htry. simpl in *.
  destruct (debug_mode cfg); simpl in *.
  - split; [done|]. split; [done|].
    split; [by rewrite !registrations_app, !app_nil_r | exact Hstep].
  - split; [done|]. split; [done|].
    split; [by rewrite registrations_app, app_nil_r | exact Hstep].
Qed.

(** ** The thread steps and the iteration *)

Lemma worker_steps_register_all island avg items (st : State) :
  exists n,
    worker_steps env cfg n (st, next_item island avg items)
    = leave (handle cfg (register_all env cfg island avg items st)).
Proof.
  revert st. induction items as [|item rest IH]; intros st.
  - by exists 0%nat.
  - cbn [next_item register_all]. unfold bind, loop_item at 1.
    destruct (register_sample env cfg (tot_sample_nums st) island avg item st)
      as [st1 [e|u]] eqn:Hreg.
    + exists 1%nat. cbn [worker_steps worker_step fst snd].
      unfold finish_item. by rewrite Hreg.
    + destruct (IH st1) as [n Hn]. exists (S n).
      cbn [worker_steps worker_step fst snd].
      unfold finish_item. by rewrite Hreg.
Qed.

(** A sampler thread that runs alone from the loop test, with budget
    left, does what [iteration] computes. *)
Lemma worker_steps_iteration (st : State) :
  budget_left cfg st = true ->
  exists n,
    worker_steps env cfg n (st, WAtTest) = leave (iteration env cfg st).
Proof.
  intros Hb. unfold iteration, try_block, bind.
  destruct (sample_batch env cfg st) as [st1 [e|b]] eqn:Hsb.
  - exists 1%nat. cbn [worker_steps worker_step fst snd]. by rewrite Hb, Hsb.
  - destruct (worker_steps_register_all (batch_island b) (batch_avg b)
                (batch_items b) st1) as [n Hn].
    exists (S n). cbn [worker_steps worker_step fst snd]. by rewrite Hb, Hsb.
Qed.

Lemma worker_steps_add n k (r : State * Worker) :
  worker_steps env cfg (n + k) r
  = worker_steps env cfg k (worker_steps env cfg n r).
Proof.
  revert r. induction n as [|n IH]; intros r; simpl; [done|]. apply IH.
Qed.

(** What [sample_evaluate_register] returns is reached by the steps of
    a thread that runs alone. *)
Lemma sample_evaluate_register_steps fuel (st : State) r :
  sample_evaluate_register env cfg fuel st = Some r ->
  exists n, worker_steps env cfg n (st, WAtTest) = r.
Proof.
  revert st. induction fuel as [|fuel IH]; intros st; simpl.
  - destruct (budget_left cfg st) eqn:Hb; [done|].
    intros [= <-]. exists 1%nat. simpl. by rewrite Hb.
  - destruct (budget_left cfg st) eqn:Hb.
    + destruct (worker_steps_iteration st Hb) as [n Hn].
      destruct (leave (iteration env cfg st)) as [st' w] eqn:Hl.
      destruct w; try (intros [= <-]; by exists n).
      intros H. destruct (IH st' H) as [k Hk].
      exists (n + k)%nat. by rewrite worker_steps_add, Hn.
    + intros [= <-]. exists 1%nat. simpl. by rewrite Hb.
Qed.

(** ** The [except] clauses, lines 177-183 *)

Lemma exception_swallowed_without_debug e (st : State) :
  is_Exception e = true -> debug_mode cfg = false ->
  handle cfg (st, inl e) = (st, Continue).
Proof. intros He Hd. destruct e; simpl in *; try done; by rewrite Hd. Qed.

Lemma exception_exits_with_debug e (st : State) :
  is_Exception e = true -> debug_mode cfg = true ->
  handle cfg (st, inl e) = (log EvExit (log EvPrintExc st), Unwind SystemExit).
Proof. intros He Hd. destruct e; simpl in *; try done; by rewrite Hd. Qed.

(** What the loop body did before it raised stays done: the thread is
    back at the loop test with the counter incremented. *)
Lemma swallowed_exception_keeps_effects loaded island avg item rest
    (st st' : State) e :
  register_sample env cfg loaded island avg item st = (st', inl e) ->
  is_Exception e = true -> debug_mode cfg = false ->
  finish_item env cfg loaded island avg item rest st = (st', WAtTest) /\
  tot_sample_nums st' = loaded + 1 /\
  grows_by worker_event st st'.
Proof.
  intros Hreg He Hd. unfold finish_item. rewrite Hreg.
  rewrite exception_swallowed_without_debug by done. split; [done|].
  pose proof (register_sample_counter loaded island avg item st) as Hc.
  pose proof (emits_register_sample loaded island avg item st) as Hg.
  rewrite Hreg in Hc, Hg. done.
Qed.

(** With [debug_mode], the thread whose iteration raised prints the
    traceback, calls [exit()] and is unwound by [SystemExit]; the main
    thread and the other sampler threads are left as they were. *)
Lemma debug_exit_unwinds_one_thread atomic (s : System) i st' e :
  workers s !! i = Some WAtTest ->
  budget_left cfg (shared s) = true ->
  sample_batch env cfg (shared s) = (st', inl e) ->
  is_Exception e = true -> debug_mode cfg = true ->
  step env cfg atomic s (RunWorker i)
  = mkSystem (log EvExit (log EvPrintExc st')) (main_thread s)
      (<[i:=WUnwound SystemExit]> (workers s)).
Proof.
  intros Hw Hb Hsb He Hd. unfold step. rewrite Hw.
  cbn [worker_step]. rewrite Hb, Hsb.
  by rewrite exception_exits_with_debug.
Qed.

(** ** The start of [run] *)

Lemma step_worker_idle atomic (s : System) i w :
  workers s !! i = Some w ->
  worker_step env cfg atomic w (shared s) = (shared s, w) ->
  step env cfg atomic s (RunWorker i) = s.
Proof.
  intros Hw Hstep. simpl. rewrite Hw, Hstep.
  destruct s as [st mt ws]; simpl in *. by rewrite list_insert_id.
Qed.

Lemma step_not_started atomic (s : System) a e :
  main_thread s = MRaised e ->
  Forall (fun w => w = WNotStarted) (workers s) ->
  step env cfg atomic s a = s.
Proof.
  intros Hm Hws. destruct a as [|i].
  - unfold step, main_step. by rewrite Hm.
  - destruct (workers s !! i) as [w|] eqn:Hw.
    + rewrite Forall_lookup in Hws. rewrite (Hws i w Hw) in Hw.
      by apply (step_worker_idle atomic s i WNotStarted).
    + unfold step. by rewrite Hw.
Qed.

Lemma exec_not_started atomic sched (s : System) e :
  main_thread s = MRaised e ->
  Forall (fun w => w = WNotStarted) (workers s) ->
  exec env cfg atomic sched s = s.
Proof.
  intros Hm Hws. induction sched as [|a sched IH]; simpl; [done|].
  by rewrite (step_not_started atomic s a e).
Qed.

Lemma replicate_not_started n :
  Forall (fun w : Worker => w = WNotStarted)
    (replicate n WNotStarted).
Proof. apply Forall_replicate. done. Qed.

(** C3: with [resume_mode] off and a seed program that evaluates to
    score [None], [run] raises the [RuntimeError] of line 196.  Whatever
    is scheduled afterwards, no sampler thread is ever started, and the
    only call made is the evaluation of the seed: nothing is registered
    in the store and nothing is handed to the profiler. *)
Theorem seed_without_score_aborts atomic sched eval_time :
  resume_mode cfg = false ->
  evaluate_program_record_time env [] (template_program cfg)
  = inr (None, eval_time) ->
  let s := run env cfg atomic sched in
  main_thread s = MRaised (RuntimeError seed_error_message) /\
  Forall (fun w => w = WNotStarted) (workers s) /\
  trace (shared s) = [EvEvaluateSeed (template_program cfg)] /\
  Forall (fun ev => is_thread_start ev = false) (trace (shared s)) /\
  registrations (trace (shared s)) = [] /\
  reports (trace (shared s)) = [].
Proof.
  intros Hres Heval s.
  assert (boot env cfg
          = mkSystem (log (EvEvaluateSeed (template_program cfg)) init_state)
              (MRaised (RuntimeError seed_error_message))
              (replicate (nworkers cfg) WNotStarted)) as Hboot.
  { unfold boot, seed_and_register. rewrite Hres.
    unfold bind, call. simpl. rewrite Heval. done. }
  assert (s = boot env cfg) as ->.
  { unfold s, run. rewrite Hboot.
    eapply exec_not_started; [done | apply replicate_not_started]. }
  rewrite Hboot. simpl.
  split; [done|]. split; [apply replicate_not_started|].
  split; [done|]. split; [|done]. by repeat constructor.
Qed.

Lemma seed_and_register_inr (st st' : State) :
  resume_mode cfg = false ->
  seed_and_register env cfg st = (st', inr tt) ->
  exists s eval_time,
    evaluate_program_record_time env (trace st) (template_program cfg)
    = inr (Some s, eval_time) /\
    trace st'
    = trace st
      ++ [EvEvaluateSeed (template_program cfg);
          EvDbRegister (function_to_evolve cfg) None (Some s)]
      ++ match profiler cfg with
         | Some _ =>
             [EvProfRegister
                (annotate (function_to_evolve cfg) (Some s)
                   (sample_time (function_to_evolve cfg)) (Some eval_time))]
         | None => []
         end.
Proof.
  intros Hres H. unfold seed_and_register in H. rewrite Hres in H.
  apply bind_cases in H as [(st1 & [sc t] & H1 & H)|(e & _ & [=])].
  unfold call in H1. inversion H1 as [[Hst1 Heval]]. clear H1.
  destruct sc as [sc|]; [|done].
  apply bind_cases in H as [(st2 & [] & H2 & H)|(e & _ & [=])].
  unfold call in H2. inversion H2 as [[Hst2 Hreg]]. clear H2.
  exists sc, t. split; [done|].
  destruct (profiler cfg) as [kind|].
  - unfold call in H. inversion H as [[Hst' Hprof]].
    subst st1 st2. simpl. by rewrite <- !app_assoc.
  - unfold ret in H. inversion H. subst st1 st2 st'. simpl.
    by rewrite <- !app_assoc.
Qed.

Lemma seed_and_register_counter (st : State) :
  tot_sample_nums (seed_and_register env cfg st).1 = tot_sample_nums st.
Proof.
  unfold seed_and_register, bind, call, ret, raise.
  repeat case_match; simplify_eq/=; done.
Qed.

Lemma step_all_not_started atomic (s : System) i :
  Forall (fun w => w = WNotStarted) (workers s) ->
  step env cfg atomic s (RunWorker i) = s.
Proof.
  intros Hws. destruct (workers s !! i) as [w|] eqn:Hw.
  - rewrite Forall_lookup in Hws. rewrite (Hws i w Hw) in Hw.
    by apply (step_worker_idle atomic s i WNotStarted).
  - unfold step. by rewrite Hw.
Qed.

Lemma start_invariant_boot : start_invariant env cfg (boot env cfg).
Proof.
  left. unfold before_first_start, boot.
  destruct (seed_and_register env cfg init_state) as [st [e|[]]] eqn:Hseed;
    simpl; (split; [done|]); (split; [apply replicate_not_started|]);
    [done | by exists st].
Qed.

Lemma start_invariant_step atomic (s : System) a :
  start_invariant env cfg s -> start_invariant env cfg (step env cfg atomic s a).
Proof.
  intros [(Htr & Hws & Hm)|[(Hok & rest & Htr)|(Htr & Hws & Hm)]].
  - destruct a as [|i]; [|rewrite step_all_not_started by done; by left].
    unfold step, main_step.
    destruct (main_thread s) as [[|k]|k| |e] eqn:Hmain; try done.
    + destruct (0 <? nworkers cfg)%nat eqn:Hn.
      * right; left. split; [done|]. exists []. simpl. by rewrite Htr.
      * left. apply Nat.ltb_ge in Hn.
        split; [done|]. split; [done|]. simpl. lia.
    + rewrite Hm. simpl.
      destruct (profiler cfg) as [kind|].
      * right; right. split; [simpl; by rewrite Htr|]. done.
      * left. split; [done|]. split; [done|]. simpl. done.
    + left. unfold before_first_start. by rewrite Hmain.
    + left. unfold before_first_start. by rewrite Hmain.
  - right; left. split; [done|].
    destruct (step_grows_scored atomic s a) as (evs & Hevs & _).
    exists (rest ++ evs). rewrite Hevs, Htr, <- app_assoc. done.
  - right; right.
    destruct a as [|i]; [|rewrite step_all_not_started by done; done].
    unfold step, main_step. rewrite Hm. done.
Qed.

Lemma start_invariant_exec atomic sched (s : System) :
  start_invariant env cfg s -> start_invariant env cfg (exec env cfg atomic sched s).
Proof.
  revert s. induction sched as [|a sched IH]; intros s H; simpl; [done|].
  apply IH. by apply start_invariant_step.
Qed.

Lemma startup_event_not_start (ev : Event) :
  startup_event ev -> is_thread_start ev = false.
Proof. destruct ev; simpl; tauto. Qed.

Lemma first_thread_start_unique (l1 l2 r1 r2 : list Event) i j :
  l1 ++ EvThreadStart i :: r1 = l2 ++ EvThreadStart j :: r2 ->
  Forall (fun ev => is_thread_start ev = false) l1 ->
  Forall (fun ev => is_thread_start ev = false) l2 ->
  l1 = l2 /\ i = j.
Proof.
  revert l2. induction l1 as [|x l1 IH]; intros [|y l2] H F1 F2; simpl in H.
  - by inversion H.
  - inversion H; subst y. inversion F2; subst. done.
  - inversion H; subst x. inversion F1; subst. done.
  - inversion H; subst y. inversion F1; inversion F2; subst.
    destruct (IH l2) as [-> ->]; done.
Qed.

(** C6: with [resume_mode] off, at the moment the first sampler thread
    is started the store has received exactly one registration, the seed
    function with island [None] and the score of its evaluation, and
    every call made so far belongs to lines 192-203 (no prompt has been
    drawn); from then on the main thread only starts threads and
    finishes the profiler. *)
Theorem seed_registered_once_before_workers atomic sched pre i post :
  resume_mode cfg = false ->
  trace (shared (run env cfg atomic sched)) = pre ++ EvThreadStart i :: post ->
  Forall (fun ev => is_thread_start ev = false) pre ->
  (exists s, registrations pre = [(function_to_evolve cfg, None, Some s)]) /\
  Forall startup_event pre /\
  i = 0%nat /\
  forall s', grows_by main_event (shared s') (shared (main_step cfg s')).
Proof.
  intros Hres Htrace Hpre.
  pose proof (start_invariant_exec atomic sched _ start_invariant_boot) as Hinv.
  fold (run env cfg atomic sched) in Hinv.
  destruct boot_grows_startup as (evs0 & Hevs0 & Hstart0). simpl in Hevs0.
  assert (Forall (fun ev : Event => is_thread_start ev = false)
            (trace (shared (boot env cfg)))) as Hno.
  { rewrite Hevs0. eapply Forall_impl; [|exact Hstart0].
    apply startup_event_not_start. }
  destruct Hinv as [(Htr & _ & _)|[(Hok & rest & Htr)|(Htr & _ & _)]].
  - rewrite Htr in Htrace. rewrite Htrace in Hno.
    apply Forall_app in Hno as [_ Hno]. by inversion Hno.
  - rewrite Htr in Htrace.
    destruct (first_thread_start_unique _ _ _ _ _ _ Htrace Hno Hpre)
      as [<- <-].
    split; [|split; [by rewrite Hevs0 | split; [done | apply main_step_grows]]].
    destruct Hok as [st0 Hseed].
    destruct (seed_and_register_inr _ _ Hres Hseed) as (sc & t & _ & Hst0).
    exists sc. unfold boot. rewrite Hseed. simpl. rewrite Hst0. simpl.
    by destruct (profiler cfg).
  - exfalso. rewrite Htr in Htrace.
    assert (EvThreadStart i ∈ trace (shared (boot env cfg)) ++ [EvProfFinish])
      as Hin.
    { rewrite Htrace. apply elem_of_app. right. apply list_elem_of_here. }
    apply elem_of_app in Hin as [Hin|Hin].
    + rewrite Hevs0 in Hin. rewrite list.Forall_forall in Hstart0.
      by apply Hstart0 in Hin.
    + apply list_elem_of_singleton in Hin. done.
Qed.

(** ** The budget counter under interleaving *)

Lemma handle_counter (r : State * (Exn + unit)) :
  tot_sample_nums (handle cfg r).1 = tot_sample_nums r.1.
Proof.
  destruct r as [st [e|u]]; simpl; [|done].
  destruct e; simpl; try done; by destruct (debug_mode cfg).
Qed.

Lemma leave_counter (r : State * Flow) :
  tot_sample_nums (leave r).1 = tot_sample_nums r.1.
Proof. by destruct r as [st [| |e]]. Qed.

Lemma leave_pending (r : State * Flow) :
  pending (leave r).2 = 0%nat /\ is_loaded (leave r).2 = false /\
  (leave r).2 <> WReturned BudgetReached.
Proof. by destruct r as [st [| |e]]. Qed.

Lemma next_item_pending island avg (rest : list Item) :
  pending (next_item island avg rest) = length rest /\
  is_loaded (next_item island avg rest) = false /\
  next_item island avg rest <> WReturned BudgetReached.
Proof. by destruct rest. Qed.

Lemma batch_items_length (st st' : State) b :
  one_candidate_per_prompt env ->
  sample_batch env cfg st = (st', inr b) ->
  (length (batch_items b) <= Z.to_nat (samples_per_prompt cfg))%nat.
Proof.
  intros Hone H.
  apply sample_batch_inr in H
    as (prompt & sampled & _ & Hd & _ & _ & _ & _ & Hlen & _).
  apply Hone in Hd. unfold prompt_contents in Hd.
  rewrite length_replicate in Hd.
  pose proof (convert_samples_length sampled). lia.
Qed.

Lemma finish_item_cases loaded island avg item rest (st : State) :
  let r := finish_item env cfg loaded island avg item rest st in
  tot_sample_nums r.1 = loaded + 1 /\
  (pending r.2 <= length rest)%nat /\
  is_loaded r.2 = false /\
  r.2 <> WReturned BudgetReached.
Proof.
  unfold finish_item.
  pose proof (register_sample_counter loaded island avg item st) as Hc.
  destruct (register_sample env cfg loaded island avg item st)
    as [st1 [e|u]]; cbn [fst snd] in *.
  - rewrite leave_counter, (handle_counter (st1, inl e)). cbn [fst snd].
    destruct (leave_pending (handle cfg (st1, inl e))) as (-> & -> & Hne).
    repeat split; [done | lia | done].
  - destruct (next_item_pending island avg rest) as (-> & -> & Hne).
    repeat split; [done | lia | done].
Qed.

Lemma worker_step_atomic_cases m w (st : State) :
  max_sample_nums cfg = Some m ->
  one_candidate_per_prompt env ->
  is_loaded w = false ->
  let r := worker_step env cfg true w st in
  is_loaded r.2 = false /\
  ((tot_sample_nums r.1 = tot_sample_nums st /\
    (pending r.2 <= pending w)%nat) \/
   (tot_sample_nums st < m /\ tot_sample_nums r.1 = tot_sample_nums st /\
    (pending r.2 <= Z.to_nat (samples_per_prompt cfg))%nat) \/
   (tot_sample_nums r.1 = tot_sample_nums st + 1 /\
    (pending r.2 < pending w)%nat)).
Proof.
  intros Hmax Hone Hload.
  destruct w; unfold worker_step; cbn [fst snd]; try done.
  - split; [done|]. left. done.
  - unfold budget_left. rewrite Hmax.
    destruct (tot_sample_nums st <? m) eqn:Hlt.
    + apply Z.ltb_lt in Hlt.
      pose proof (sample_batch_counter st) as Hc.
      destruct (sample_batch env cfg st) as [st1 [e|b]] eqn:Hsb;
        cbn [fst snd] in *.
      * destruct (leave_pending (handle cfg (st1, inl e))) as (Hp & Hl & _).
        split; [done|]. left.
        rewrite leave_counter, (handle_counter (st1, inl e)). cbn [fst snd].
        split; [done | lia].
      * destruct (next_item_pending (batch_island b) (batch_avg b)
                    (batch_items b)) as (Hp & Hl & _).
        split; [done|]. right; left.
        pose proof (batch_items_length _ _ _ Hone Hsb). split; [done|].
        split; [done | lia].
    + cbn [fst snd]. split; [done|]. left. done.
  - destruct (finish_item_cases (tot_sample_nums st) island avg item rest st)
      as (Hc & Hp & Hl & _).
    split; [done|]. right; right. split; [done|]. simpl pending. lia.
  - split; [done|]. left. done.
  - split; [done|]. left. done.
Qed.

Lemma worker_step_returned atomic m w (st : State) :
  max_sample_nums cfg = Some m ->
  let r := worker_step env cfg atomic w st in
  r.2 = WReturned BudgetReached ->
  r = (st, w) \/ m <= tot_sample_nums r.1.
Proof.
  intros Hmax.
  destruct w; unfold worker_step; cbn [fst snd]; try (intros _; by left).
  - unfold budget_left. rewrite Hmax.
    destruct (tot_sample_nums st <? m) eqn:Hlt.
    + destruct (sample_batch env cfg st) as [st1 [e|b]]; cbn [fst snd].
      * intros H. by destruct (leave_pending (handle cfg (st1, inl e)))
          as (_ & _ & Hne).
      * intros H. by destruct (next_item_pending (batch_island b)
                                 (batch_avg b) (batch_items b)) as (_ & _ & Hne).
    + apply Z.ltb_ge in Hlt. intros _. right. done.
  - destruct atomic; cbn [fst snd]; [|done].
    intros H. by destruct (finish_item_cases (tot_sample_nums st) island avg
                             item rest st) as (_ & _ & _ & Hne).
  - intros H. by destruct (finish_item_cases loaded island avg item rest st)
      as (_ & _ & _ & Hne).
Qed.

Lemma total_pending_insert (ws : list Worker) i w w' :
  ws !! i = Some w ->
  (total_pending (<[i:=w']> ws) + pending w
   = total_pending ws + pending w')%nat.
Proof.
  revert i.
  induction ws as [|x ws IH]; intros [|i] H; simpl in *; try done.
  - inversion H; subst. lia.
  - specialize (IH i H). lia.
Qed.

Lemma total_pending_bound (ws : list Worker) k :
  Forall (fun w => is_loaded w = false /\ (pending w <= k)%nat) ws ->
  (total_pending ws <= length ws * k)%nat.
Proof.
  induction 1 as [|w ws [_ Hw] _ IH]; simpl; lia.
Qed.

Lemma total_pending_completed (ws : list Worker) :
  Forall (fun w => w = WReturned BudgetReached) ws -> total_pending ws = 0%nat.
Proof.
  induction 1 as [|w ws -> _ IH]; simpl; lia.
Qed.

Lemma budget_invariant_step m (s : System) a :
  max_sample_nums cfg = Some m ->
  one_candidate_per_prompt env ->
  budget_invariant cfg m s -> budget_invariant cfg m (step env cfg true s a).
Proof.
  intros Hmax Hone (Hlen & Hall & Hbound).
  destruct a as [|i].
  - unfold step, main_step.
    destruct (main_thread s) as [k|k| |e]; [| |done|done].
    + destruct (k <? nworkers cfg)%nat; [|done].
      unfold budget_invariant. simpl. rewrite length_insert.
      split; [done|]. split.
      * destruct (workers s !! k) as [w|] eqn:Hw.
        -- apply Forall_insert; [done|]. simpl. split; [done | lia].
        -- apply lookup_ge_None in Hw. by rewrite list_insert_ge.
      * intros Hm. specialize (Hbound Hm).
        destruct (workers s !! k) as [w|] eqn:Hw.
        -- pose proof (total_pending_insert _ _ _ WAtTest Hw) as Hs.
           simpl in Hs. lia.
        -- apply lookup_ge_None in Hw. by rewrite list_insert_ge.
    + destruct (k <? nworkers cfg)%nat.
      * destruct (workers s !! k) as [w|]; [|done].
        by destruct (terminated w).
      * unfold budget_invariant. simpl. by destruct (profiler cfg).
  - unfold step. destruct (workers s !! i) as [w|] eqn:Hw; [|done].
    pose proof Hall as Hall'. rewrite Forall_lookup in Hall'.
    destruct (Hall' i w Hw) as [Hload Hpend].
    destruct (worker_step_atomic_cases m w (shared s) Hmax Hone Hload)
      as (Hload' & Hcases).
    pose proof (total_pending_bound _ _ Hall) as Htot.
    destruct (worker_step env cfg true w (shared s)) as [st' w'];
      simpl in *.
    pose proof (total_pending_insert _ _ _ w' Hw) as Hs.
    unfold budget_invariant. simpl. rewrite length_insert.
    split; [done|].
    destruct Hcases as [[Hc Hp]|[(Hlt & Hc & Hp)|[Hc Hp]]].
    + split; [apply Forall_insert; [done|]; split; [done | lia]|].
      rewrite Hc. intros Hm. specialize (Hbound Hm). lia.
    + split; [apply Forall_insert; [done|]; split; [done | lia]|].
      rewrite Hc. intros Hm. lia.
    + split; [apply Forall_insert; [done|]; split; [done | lia]|].
      rewrite Hc. intros Hm.
      destruct (Z_le_gt_dec m (tot_sample_nums (shared s))) as [Hle|Hgt].
      * specialize (Hbound Hle). lia.
      * rewrite Hlen in Htot. lia.
Qed.

Lemma budget_invariant_exec m sched (s : System) :
  max_sample_nums cfg = Some m ->
  one_candidate_per_prompt env ->
  budget_invariant cfg m s -> budget_invariant cfg m (exec env cfg true sched s).
Proof.
  intros Hmax Hone. revert s.
  induction sched as [|a sched IH]; intros s H; simpl; [done|].
  apply IH. by apply budget_invariant_step.
Qed.

Lemma boot_counter : tot_sample_nums (shared (boot env cfg)) = 0.
Proof.
  unfold boot. pose proof (seed_and_register_counter init_state) as H.
  by destruct (seed_and_register env cfg init_state) as [st [e|u]].
Qed.

Lemma boot_workers : workers (boot env cfg) = replicate (nworkers cfg) WNotStarted.
Proof.
  unfold boot. by destruct (seed_and_register env cfg init_state) as [st [e|u]].
Qed.

Lemma budget_invariant_boot m :
  0 <= m -> 0 < num_samplers cfg -> 0 < samples_per_prompt cfg ->
  budget_invariant cfg m (boot env cfg).
Proof.
  intros Hm Hn Hs. unfold budget_invariant.
  rewrite boot_counter, boot_workers, length_replicate.
  split; [done|]. split.
  - apply Forall_replicate. simpl. split; [done | lia].
  - intros _.
    replace (total_pending (replicate (nworkers cfg) WNotStarted))
      with 0%nat.
    + unfold nworkers. nia.
    + induction (nworkers cfg); simpl; done.
Qed.

(** The lower bound needs no atomicity: the thread that returns last
    has just seen the counter at or above the ceiling. *)
Lemma completed_step atomic m (s : System) a :
  max_sample_nums cfg = Some m ->
  (completed s -> workers s <> [] -> m <= tot_sample_nums (shared s)) ->
  completed (step env cfg atomic s a) -> workers (step env cfg atomic s a) <> [] ->
  m <= tot_sample_nums (shared (step env cfg atomic s a)).
Proof.
  intros Hmax IH. destruct a as [|i].
  - unfold step, main_step.
    destruct (main_thread s) as [k|k| |e]; [| |done|done].
    + destruct (k <? nworkers cfg)%nat; [|done].
      unfold completed. simpl. intros Hdone Hne.
      destruct (workers s !! k) as [w|] eqn:Hw.
      * rewrite Forall_lookup in Hdone.
        assert (<[k:=WAtTest]> (workers s) !! k = Some WAtTest) as Hk.
        { apply list_lookup_insert_eq. by eapply lookup_lt_Some. }
        by apply Hdone in Hk.
      * apply lookup_ge_None in Hw. rewrite list_insert_ge in Hdone, Hne by done.
        by apply IH.
    + destruct (k <? nworkers cfg)%nat.
      * destruct (workers s !! k) as [w|]; [|done].
        by destruct (terminated w).
      * unfold completed. simpl. intros Hdone Hne.
        destruct (profiler cfg); simpl; by apply IH.
  - unfold step. destruct (workers s !! i) as [w|] eqn:Hw; [|done].
    pose proof (worker_step_returned atomic m w (shared s) Hmax) as Hret.
    destruct (worker_step env cfg atomic w (shared s)) as [st' w'];
      simpl in *.
    unfold completed. simpl. intros Hdone Hne.
    assert (w' = WReturned BudgetReached) as Hw'.
    { rewrite Forall_lookup in Hdone. apply (Hdone i).
      apply list_lookup_insert_eq. by eapply lookup_lt_Some. }
    destruct (Hret Hw') as [[= -> ->]|Hm]; [|done].
    rewrite list_insert_id in Hdone, Hne by done. by apply IH.
Qed.

Lemma completed_exec atomic m sched (s : System) :
  max_sample_nums cfg = Some m ->
  (completed s -> workers s <> [] -> m <= tot_sample_nums (shared s)) ->
  completed (exec env cfg atomic sched s) ->
  workers (exec env cfg atomic sched s) <> [] ->
  m <= tot_sample_nums (shared (exec env cfg atomic sched s)).
Proof.
  intros Hmax. revert s.
  induction sched as [|a sched IH]; intros s H; simpl; [done|].
  apply IH. by apply completed_step.
Qed.

Lemma exec_workers_length atomic sched (s : System) :
  length (workers (exec env cfg atomic sched s)) = length (workers s).
Proof.
  revert s. induction sched as [|a sched IH]; intros s; simpl; [done|].
  rewrite IH. destruct a as [|i]; simpl.
  - unfold main_step. destruct (main_thread s) as [k|k| |e]; try done.
    + destruct (k <? nworkers cfg)%nat; simpl; [by rewrite length_insert | done].
    + destruct (k <? nworkers cfg)%nat; [|done].
      destruct (workers s !! k) as [w|]; [|done]. by destruct (terminated w).
  - destruct (workers s !! i) as [w|]; [|done].
    destruct (worker_step env cfg atomic w (shared s)). simpl.
    by rewrite length_insert.
Qed.

(** C5, as amended: in a run that every sampler thread leaves through
    the loop test, with a ceiling [m >= 0], at least one sampler, at
    least one sample per prompt and a backend that answers at most one
    candidate per prompt, the counter ends at [m] or above; when the
    increments of the counter are atomic it ends below
    [m + num_samplers * samples_per_prompt]. *)
Theorem budget_counter_final_bounds atomic sched m :
  max_sample_nums cfg = Some m ->
  0 <= m ->
  0 < num_samplers cfg ->
  0 < samples_per_prompt cfg ->
  one_candidate_per_prompt env ->
  completed (run env cfg atomic sched) ->
  m <= tot_sample_nums (shared (run env cfg atomic sched)) /\
  (atomic = true ->
   tot_sample_nums (shared (run env cfg atomic sched))
   < m + num_samplers cfg * samples_per_prompt cfg).
Proof.
  intros Hmax Hm Hn Hs Hone Hdone.
  assert (workers (run env cfg atomic sched) <> []) as Hne.
  { intros Hnil. apply (f_equal length) in Hnil. unfold run in Hnil.
    rewrite exec_workers_length, boot_workers, length_replicate in Hnil.
    unfold nworkers in Hnil. simpl in Hnil. lia. }
  assert (m <= tot_sample_nums (shared (run env cfg atomic sched))) as Hlow.
  { unfold run in *. apply completed_exec; try done.
    unfold completed. rewrite boot_workers. intros Hc _.
    destruct (nworkers cfg) as [|n] eqn:HN.
    - unfold nworkers in HN. lia.
    - simpl in Hc. by inversion Hc. }
  split; [done|]. intros ->.
  destruct (budget_invariant_exec m sched (boot env cfg) Hmax Hone
              (budget_invariant_boot m Hm Hn Hs)) as (_ & _ & Hbound).
  fold (run env cfg true sched) in Hbound. specialize (Hbound Hlow).
  rewrite (total_pending_completed _ Hdone) in Hbound.
  unfold nworkers in Hbound. nia.
Qed.

(** ** The calls a run can make *)

Section Emission.

Variable P : Event -> Prop.

Hypothesis P_get_prompt : P EvGetPrompt.
Hypothesis P_draw :
  forall text,
    P (EvDrawSamples (replicate (Z.to_nat (samples_per_prompt cfg)) text)).
Hypothesis P_debug : debug_mode cfg = true -> P EvPrintExc /\ P EvExit.
Hypothesis P_register : forall f island s, P (EvDbRegister f island (Some s)).
Hypothesis P_report : profiler cfg <> None -> forall f, P (EvProfRegister f).
Hypothesis P_report_db :
  profiler cfg = Some FunSearchProfiler -> P EvProfRegisterDb.

Lemma emits_sample_batch_of : emits P (sample_batch env cfg).
Proof.
  unfold sample_batch.
  apply emits_bind; [by apply emits_call|]. intros prompt.
  apply emits_bind; [apply emits_time_time|]. intros t0.
  apply emits_bind; [apply emits_call; apply P_draw|]. intros sampled.
  apply emits_bind; [apply emits_time_time|]. intros t1.
  apply emits_bind.
  { destruct (length sampled =? 0)%nat; [apply emits_raise | apply emits_ret]. }
  intros avg.
  apply emits_bind; [apply emits_submit_all|]. intros futures.
  apply emits_bind; [apply emits_collect|]. intros rs. apply emits_ret.
Qed.

Lemma handle_grows_of (r : State * (Exn + unit)) :
  grows_by P r.1 (handle cfg r).1.
Proof.
  destruct r as [st [e|u]]; simpl; [|apply grows_by_refl].
  destruct e; simpl; try apply grows_by_refl;
    (destruct (debug_mode cfg) eqn:Hd; simpl; [|apply grows_by_refl];
     destruct (P_debug eq_refl);
     eapply grows_by_trans; apply grows_by_log; done).
Qed.

Lemma emits_register_sample_of loaded island avg item :
  emits P (register_sample env cfg loaded island avg item).
Proof.
  destruct item as [[program sc] eval_time]. unfold register_sample.
  apply emits_bind; [apply emits_store_tot|]. intros _.
  destruct (program_to_function env program) as [f|]; [|apply emits_ret].
  apply emits_bind.
  { destruct sc; [by apply emits_call | apply emits_ret]. }
  intros _. destruct (profiler cfg) as [kind|] eqn:Hprof; [|apply emits_ret].
  apply emits_bind; [apply emits_call; by apply P_report|]. intros _.
  destruct kind; [apply emits_call; by apply P_report_db | apply emits_ret].
Qed.

Lemma emits_register_all_of island avg items :
  emits P (register_all env cfg island avg items).
Proof.
  induction items as [|item rest IH]; simpl.
  - apply emits_ret.
  - apply emits_bind; [|intros _; exact IH].
    intros st. apply emits_register_sample_of.
Qed.

End Emission.

Lemma leave_trace (r : State * Flow) :
  trace (leave r).1
  = trace r.1 ++ (if is_returned (leave r).2 then [EvShutdown] else []).
Proof. destruct r as [st [| |e]]; simpl; by rewrite ?app_nil_r. Qed.

Lemma next_item_not_returned island avg (rest : list Item) :
  is_returned (next_item island avg rest) = false.
Proof. by destruct rest. Qed.

Lemma iteration_event_debug :
  debug_mode cfg = true ->
  iteration_event cfg EvPrintExc /\ iteration_event cfg EvExit.
Proof. done. Qed.

Lemma iteration_event_draw text :
  iteration_event cfg
    (EvDrawSamples (replicate (Z.to_nat (samples_per_prompt cfg)) text)).
Proof. by exists text. Qed.

Lemma emits_sample_batch_iteration :
  emits (iteration_event cfg) (sample_batch env cfg).
Proof.
  apply emits_sample_batch_of; [done | apply iteration_event_draw].
Qed.

Lemma emits_register_sample_iteration loaded island avg item :
  emits (iteration_event cfg) (register_sample env cfg loaded island avg item).
Proof. apply emits_register_sample_of; done. Qed.

Lemma handle_leave_trace (st st1 : State) e :
  grows_by (iteration_event cfg) st st1 ->
  let r := leave (handle cfg (st1, inl e)) in
  exists evs,
    Forall (iteration_event cfg) evs /\
    trace r.1
    = trace st ++ evs ++ (if is_returned r.2 then [EvShutdown] else []).
Proof.
  intros (evs1 & Hevs1 & F1) r.
  destruct (handle_grows_of (iteration_event cfg) iteration_event_debug
              (st1, inl e)) as (evs2 & Hevs2 & F2).
  exists (evs1 ++ evs2). split; [by apply Forall_app|].
  unfold r. rewrite leave_trace, Hevs2. simpl. rewrite Hevs1.
  by rewrite <- !app_assoc.
Qed.

Lemma finish_item_trace loaded island avg item rest (st : State) :
  let r := finish_item env cfg loaded island avg item rest st in
  exists evs,
    Forall (iteration_event cfg) evs /\
    trace r.1
    = trace st ++ evs ++ (if is_returned r.2 then [EvShutdown] else []).
Proof.
  unfold finish_item.
  pose proof (emits_register_sample_iteration loaded island avg item st) as H.
  destruct (register_sample env cfg loaded island avg item st)
    as [st1 [e|u]]; cbn [fst snd] in *.
  - by apply handle_leave_trace.
  - destruct H as (evs & Hevs & F). exists evs. split; [done|].
    by rewrite next_item_not_returned, app_nil_r.
Qed.

(** What one step of a sampler thread adds to the log: calls of an
    iteration, then [shutdown] if the step makes the thread return. *)
Lemma worker_step_trace atomic w (st : State) :
  let r := worker_step env cfg atomic w st in
  exists evs,
    Forall (iteration_event cfg) evs /\
    trace r.1
    = trace st ++ evs
      ++ (if negb (is_returned w) && is_returned r.2 then [EvShutdown] else []).
Proof.
  destruct w; unfold worker_step; cbn [fst snd is_returned negb andb].
  - exists []. split; [constructor | by rewrite !app_nil_r].
  - destruct (budget_left cfg st).
    + pose proof (emits_sample_batch_iteration st) as H.
      destruct (sample_batch env cfg st) as [st1 [e|b]]; cbn [fst snd] in *.
      * by apply handle_leave_trace.
      * destruct H as (evs & Hevs & F). exists evs. split; [done|].
        by rewrite next_item_not_returned, app_nil_r.
    + exists []. split; [constructor | done].
  - destruct atomic.
    + apply finish_item_trace.
    + exists []. split; [constructor | by rewrite !app_nil_r].
  - apply finish_item_trace.
  - exists []. split; [constructor | by rewrite !app_nil_r].
  - exists []. split; [constructor | by rewrite !app_nil_r].
Qed.

Lemma iteration_event_possible (ev : Event) :
  iteration_event cfg ev -> possible_event cfg ev.
Proof. destruct ev; simpl; tauto. Qed.

Lemma worker_step_possible atomic w (st : State) :
  grows_by (possible_event cfg) st (worker_step env cfg atomic w st).1.
Proof.
  destruct (worker_step_trace atomic w st) as (evs & F & Htr).
  eexists. split; [exact Htr|]. apply Forall_app. split.
  - eapply Forall_impl; [|exact F]. apply iteration_event_possible.
  - destruct (negb (is_returned w) && is_returned _); by repeat constructor.
Qed.

Lemma main_step_possible (s : System) :
  grows_by (possible_event cfg) (shared s) (shared (main_step cfg s)).
Proof.
  unfold main_step. destruct (main_thread s) as [i|i| |e]; try apply grows_by_refl.
  - destruct (i <? nworkers cfg)%nat eqn:Hi; simpl; [|apply grows_by_refl].
    apply grows_by_log. simpl. by apply Nat.ltb_lt.
  - destruct (i <? nworkers cfg)%nat; simpl.
    + destruct (workers s !! i) as [w|]; [|apply grows_by_refl].
      destruct (terminated w); apply grows_by_refl.
    + destruct (profiler cfg) eqn:Hp; [|apply grows_by_refl].
      apply grows_by_log. simpl. by rewrite Hp.
Qed.

Lemma emits_seed_and_register_possible :
  emits (possible_event cfg) (seed_and_register env cfg).
Proof.
  unfold seed_and_register. destruct (resume_mode cfg) eqn:Hr; [apply emits_ret|].
  apply emits_bind; [by apply emits_call|]. intros [sc eval_time].
  destruct sc as [s|]; [|apply emits_raise].
  apply emits_bind; [by apply emits_call|]. intros _.
  destruct (profiler cfg) eqn:Hp; [|apply emits_ret].
  apply emits_call. simpl. by rewrite Hp.
Qed.

Lemma step_possible atomic (s : System) a :
  grows_by (possible_event cfg) (shared s) (shared (step env cfg atomic s a)).
Proof.
  destruct a as [|i]; simpl; [apply main_step_possible|].
  destruct (workers s !! i) as [w|]; [|apply grows_by_refl].
  pose proof (worker_step_possible atomic w (shared s)) as H.
  by destruct (worker_step env cfg atomic w (shared s)) as [st' w'].
Qed.

(** Every call logged in a run is one that the configuration allows. *)
Lemma run_trace_possible atomic sched :
  Forall (possible_event cfg) (trace (shared (run env cfg atomic sched))).
Proof.
  unfold run.
  assert (forall s, grows_by (possible_event cfg) (shared s)
                      (shared (exec env cfg atomic sched s))) as Hexec.
  { induction sched as [|a sched IH]; intros s; simpl.
    - apply grows_by_refl.
    - eapply grows_by_trans; [apply step_possible | apply IH]. }
  eapply grows_by_Forall; [apply Hexec|].
  unfold boot. pose proof (emits_seed_and_register_possible init_state) as H.
  destruct (seed_and_register env cfg init_state) as [st [e|u]]; simpl in *;
    (eapply grows_by_Forall; [exact H | constructor]).
Qed.

(** ** Starting, joining and shutting down *)

Lemma count_shutdowns_app (tr1 tr2 : list Event) :
  count_shutdowns (tr1 ++ tr2) = (count_shutdowns tr1 + count_shutdowns tr2)%nat.
Proof.
  induction tr1 as [|ev tr1 IH]; simpl; [done|]. destruct ev; simpl; lia.
Qed.

Lemma count_finishes_app (tr1 tr2 : list Event) :
  count_finishes (tr1 ++ tr2) = (count_finishes tr1 + count_finishes tr2)%nat.
Proof.
  induction tr1 as [|ev tr1 IH]; simpl; [done|]. destruct ev; simpl; lia.
Qed.

Lemma thread_starts_app (tr1 tr2 : list Event) :
  thread_starts (tr1 ++ tr2) = thread_starts tr1 ++ thread_starts tr2.
Proof. apply omap_app. Qed.

Lemma iteration_events_quiet (evs : list Event) :
  Forall (iteration_event cfg) evs ->
  count_shutdowns evs = 0%nat /\ count_finishes evs = 0%nat /\
  thread_starts evs = [].
Proof.
  induction 1 as [|ev evs Hev _ (IH1 & IH2 & IH3)]; [done|].
  destruct ev; simpl in *; try done.
Qed.

Lemma count_returned_insert (ws : list Worker) i w w' :
  ws !! i = Some w ->
  (count_returned (<[i:=w']> ws) + (if is_returned w then 1 else 0)
   = count_returned ws + (if is_returned w' then 1 else 0))%nat.
Proof.
  revert i. induction ws as [|x ws IH]; intros [|i] H; simpl in *; try done.
  - inversion H; subst. lia.
  - specialize (IH i H). lia.
Qed.

Lemma worker_step_terminated atomic w (st : State) :
  terminated w = true -> worker_step env cfg atomic w st = (st, w).
Proof. by destruct w. Qed.

(** What a step of a sampler thread changes for the main thread:
    nothing but the count of [shutdown] calls, which follows the
    thread's return. *)
Lemma worker_step_counts atomic w (st : State) :
  let r := worker_step env cfg atomic w st in
  (count_shutdowns (trace r.1) + (if is_returned w then 1 else 0)
   = count_shutdowns (trace st) + (if is_returned r.2 then 1 else 0))%nat /\
  count_finishes (trace r.1) = count_finishes (trace st) /\
  thread_starts (trace r.1) = thread_starts (trace st) /\
  (w = WNotStarted -> r = (st, w)) /\
  (terminated w = true -> r = (st, w)).
Proof.
  intros r.
  assert (terminated w = true -> r = (st, w)) as Hterm
    by apply worker_step_terminated.
  assert (w = WNotStarted -> r = (st, w)) as Hns by by intros ->.
  destruct (worker_step_trace atomic w st) as (evs & F & Htr).
  fold r in Htr.
  destruct (iteration_events_quiet evs F) as (Hs & Hf & Ht).
  split; [|split; [|split; [|done]]].
  - destruct (is_returned w) eqn:Hw.
    + rewrite Hterm by by destruct w. simpl. by rewrite Hw.
    + rewrite Htr, !count_shutdowns_app, Hs. simpl.
      destruct (is_returned r.2); simpl; lia.
  - rewrite Htr, !count_finishes_app, Hf.
    destruct (negb (is_returned w) && is_returned r.2); simpl; lia.
  - rewrite Htr, !thread_starts_app, Ht.
    destruct (negb (is_returned w) && is_returned r.2); simpl;
      by rewrite app_nil_r.
Qed.

Lemma thread_invariant_boot : thread_invariant cfg (boot env cfg).
Proof.
  unfold thread_invariant. rewrite boot_workers, length_replicate.
  destruct emits_seed_and_register_possible with (st := @init_state Program Score Time)
    as (evs & Hevs & F).
  assert (count_shutdowns evs = 0%nat /\ count_finishes evs = 0%nat /\
          thread_starts evs = []) as (Hs & Hf & Ht).
  { unfold seed_and_register in Hevs.
    clear F. revert Hevs.
    unfold bind, call, ret, raise, log.
    repeat case_match; simplify_eq/=; intros <-; done. }
  simpl in Hevs.
  assert (count_returned (replicate (nworkers cfg) (@WNotStarted Program Score Time))
          = 0%nat) as Hr.
  { induction (nworkers cfg); simpl; done. }
  unfold boot.
  destruct (seed_and_register env cfg init_state) as [st [e|u]]; simpl in *;
    rewrite Hevs, Hs, Hf, Ht, Hr.
  - split; [done|]. split; [done|]. split; [done|]. split; [done|].
    apply replicate_not_started.
  - split; [done|]. split; [done|]. split; [lia|]. split; [done|].
    split; [done|]. intros j w _ Hw. apply lookup_replicate in Hw as [-> _].
    done.
Qed.

Lemma thread_invariant_main_step (s : System) :
  thread_invariant cfg s -> thread_invariant cfg (main_step cfg s).
Proof.
  intros (Hlen & Hshut & Hmain). unfold main_step.
  destruct (main_thread s) as [i|i| |e] eqn:Hm.
  - destruct Hmain as (Hi & Hstarts & Hfin & Hrest).
    destruct (i <? nworkers cfg)%nat eqn:Hlt.
    + apply Nat.ltb_lt in Hlt.
      destruct (lookup_lt_is_Some_2 (workers s) i) as [w Hw]; [lia|].
      pose proof (Hrest i w (le_n _) Hw) as ->.
      pose proof (count_returned_insert _ _ _ WAtTest Hw) as Hc.
      unfold thread_invariant. simpl. rewrite length_insert.
      rewrite count_shutdowns_app, count_finishes_app, thread_starts_app.
      simpl in *. rewrite Hstarts.
      split; [done|]. split; [lia|]. split; [lia|].
      split. { change (0%nat :: seq 1 i) with (seq 0 (S i)). by rewrite seq_S. }
      split; [lia|].
      intros j w' Hj Hw'. rewrite list_lookup_insert_ne in Hw' by lia.
      apply (Hrest j); [lia | done].
    + apply Nat.ltb_ge in Hlt. assert (i = nworkers cfg) as -> by lia.
      unfold thread_invariant. simpl.
      split; [done|]. split; [done|]. split; [lia|]. split; [done|].
      split; [done|]. intros j w Hj. lia.
  - destruct Hmain as (Hi & Hstarts & Hfin & Hdone).
    destruct (i <? nworkers cfg)%nat eqn:Hlt.
    + apply Nat.ltb_lt in Hlt.
      destruct (workers s !! i) as [w|] eqn:Hw;
        [|unfold thread_invariant; by rewrite Hm].
      destruct (terminated w) eqn:Hterm;
        [|unfold thread_invariant; by rewrite Hm].
      unfold thread_invariant. simpl.
      split; [done|]. split; [done|]. split; [lia|]. split; [done|].
      split; [done|]. intros j w' Hj Hw'.
      destruct (decide (j = i)) as [->|Hne].
      * rewrite Hw in Hw'. by inversion Hw'; subst.
      * apply (Hdone j); [lia | done].
    + apply Nat.ltb_ge in Hlt. assert (i = nworkers cfg) as -> by lia.
      assert (Forall (fun w => terminated w = true) (workers s)) as Hall.
      { apply Forall_lookup. intros j w Hw. apply (Hdone j); [|done].
        apply lookup_lt_Some in Hw. lia. }
      unfold thread_invariant. simpl. split; [done|].
      destruct (profiler cfg); simpl.
      * rewrite count_shutdowns_app, count_finishes_app, thread_starts_app.
        simpl. rewrite app_nil_r.
        split; [lia|]. split; [done|]. split; [done|].
        split; [lia|]. by eexists.
      * done.
  - unfold thread_invariant. by rewrite Hm.
  - unfold thread_invariant. by rewrite Hm.
Qed.

Lemma thread_invariant_step atomic (s : System) a :
  thread_invariant cfg s -> thread_invariant cfg (step env cfg atomic s a).
Proof.
  destruct a as [|k]; [apply thread_invariant_main_step|].
  intros Hinv. unfold step.
  destruct (workers s !! k) as [w|] eqn:Hw; [|done].
  destruct (worker_step_counts atomic w (shared s))
    as (Hshut' & Hfin' & Hstarts' & Hns & Hterm).
  destruct (worker_step env cfg atomic w (shared s)) as [st' w'] eqn:Hstep.
  cbn [fst snd] in *.
  destruct Hinv as (Hlen & Hshut & Hmain).
  pose proof (count_returned_insert _ _ _ w' Hw) as Hc.
  unfold thread_invariant. cbn [shared main_thread workers].
  rewrite length_insert, Hfin', Hstarts'.
  split; [done|]. split; [lia|].
  destruct (main_thread s) as [i|i| |e].
  - destruct Hmain as (Hi & Hstarts & Hfin & Hrest).
    split; [done|]. split; [done|]. split; [done|].
    intros j x Hj Hx. destruct (decide (j = k)) as [->|Hne].
    + rewrite list_lookup_insert_eq in Hx by by eapply lookup_lt_Some.
      inversion Hx; subst x.
      pose proof (Hrest k w Hj Hw) as Hwn. specialize (Hns Hwn).
      inversion Hns; by subst.
    + rewrite list_lookup_insert_ne in Hx by done. by apply (Hrest j).
  - destruct Hmain as (Hi & Hstarts & Hfin & Hdone).
    split; [done|]. split; [done|]. split; [done|].
    intros j x Hj Hx. destruct (decide (j = k)) as [->|Hne].
    + rewrite list_lookup_insert_eq in Hx by by eapply lookup_lt_Some.
      inversion Hx; subst x.
      pose proof (Hdone k w Hj Hw) as Hwt. specialize (Hterm Hwt).
      inversion Hterm; by subst.
    + rewrite list_lookup_insert_ne in Hx by done. by apply (Hdone j).
  - destruct Hmain as (Hstarts & Hall & Hfin).
    pose proof Hall as Hall'. rewrite Forall_lookup in Hall'.
    specialize (Hterm (Hall' k w Hw)). inversion Hterm; subst st' w'.
    rewrite list_insert_id by done. done.
  - destruct Hmain as (Hstarts & Hfin & Hall).
    pose proof Hall as Hall'. rewrite Forall_lookup in Hall'.
    specialize (Hns (Hall' k w Hw)). inversion Hns; subst st' w'.
    rewrite list_insert_id by done. done.
Qed.

Lemma thread_invariant_run atomic sched :
  thread_invariant cfg (run env cfg atomic sched).
Proof.
  unfold run. generalize (boot env cfg), thread_invariant_boot.
  induction sched as [|a sched IH]; intros s Hs; simpl; [done|].
  apply IH. by apply thread_invariant_step.
Qed.

Lemma run_event_possible atomic sched (ev : Event) :
  ev ∈ trace (shared (run env cfg atomic sched)) -> possible_event cfg ev.
Proof.
  intros Hin. apply list_elem_of_In in Hin.
  pose proof (run_trace_possible atomic sched) as HF.
  rewrite Forall_forall in HF. by apply HF.
Qed.

(** X1: with [resume_mode] on, [run] skips lines 193-203.  The template
    program is never evaluated, and the first call of the run is the
    start of the first sampler thread (or, without samplers, the
    profiler's [finish]). *)
Theorem resume_skips_the_seed atomic sched :
  resume_mode cfg = true ->
  (forall p,
     ~ (EvEvaluateSeed p ∈ trace (shared (run env cfg atomic sched)))) /\
  (trace (shared (run env cfg atomic sched)) = [] \/
   (exists rest,
      trace (shared (run env cfg atomic sched)) = EvThreadStart 0 :: rest) \/
   trace (shared (run env cfg atomic sched)) = [EvProfFinish]).
Proof.
  intros Hres. split.
  - intros p Hin. apply run_event_possible in Hin. simpl in Hin.
    destruct Hin as [Hin _]. congruence.
  - assert (trace (shared (boot env cfg)) = []) as Hboot.
    { unfold boot, seed_and_register. by rewrite Hres. }
    pose proof (start_invariant_exec atomic sched _ start_invariant_boot)
      as Hinv.
    fold (run env cfg atomic sched) in Hinv.
    destruct Hinv as [(Htr & _)|[(_ & rest & Htr)|(Htr & _)]];
      rewrite Hboot in Htr.
    + by left.
    + right; left. by exists rest.
    + by right; right.
Qed.

(** X2: without a profiler no profiler method is ever called: no
    function is reported, [register_program_db] and [finish] are not
    called, whatever the schedule. *)
Theorem no_profiler_no_profiler_call atomic sched :
  profiler cfg = None ->
  reports (trace (shared (run env cfg atomic sched))) = [] /\
  ~ (EvProfRegisterDb ∈ trace (shared (run env cfg atomic sched))) /\
  ~ (EvProfFinish ∈ trace (shared (run env cfg atomic sched))).
Proof.
  intros Hprof. split; [|split].
  - pose proof (run_trace_possible atomic sched) as HF.
    induction HF as [|ev tr Hev _ IH]; [done|].
    unfold reports in *. simpl.
    destruct ev; simpl in *; done.
  - intros Hin. apply run_event_possible in Hin. simpl in Hin. congruence.
  - intros Hin. apply run_event_possible in Hin. simpl in Hin. congruence.
Qed.

(** X3: [register_program_db] is called on a [FunSearchProfiler] only
    (line 175). *)
Theorem program_db_only_on_funsearch_profiler atomic sched :
  EvProfRegisterDb ∈ trace (shared (run env cfg atomic sched)) ->
  profiler cfg = Some FunSearchProfiler.
Proof. intros Hin. by apply run_event_possible in Hin. Qed.

(** X4: without [debug_mode] no traceback is printed and [exit()] is
    never called, whatever the collaborators raise. *)
Theorem no_debug_no_exit atomic sched :
  debug_mode cfg = false ->
  ~ (EvPrintExc ∈ trace (shared (run env cfg atomic sched))) /\
  ~ (EvExit ∈ trace (shared (run env cfg atomic sched))).
Proof.
  intros Hd. split; intros Hin; apply run_event_possible in Hin;
    simpl in Hin; congruence.
Qed.

(** X5: every request to the sampler carries [samples_per_prompt]
    copies of one text, none when [samples_per_prompt] is not
    positive. *)
Theorem batch_request_replicates_prompt atomic sched prompts :
  EvDrawSamples prompts ∈ trace (shared (run env cfg atomic sched)) ->
  exists text,
    prompts = replicate (Z.to_nat (samples_per_prompt cfg)) text.
Proof. intros Hin. by apply run_event_possible in Hin. Qed.

(** X6: the executor's [shutdown] has been called once for each sampler
    thread that has returned from [_sample_evaluate_register] (through
    the loop test or [break]); a thread that an exception unwinds does
    not call it. *)
Theorem shutdown_once_per_returned_thread atomic sched :
  count_shutdowns (trace (shared (run env cfg atomic sched)))
  = count_returned (workers (run env cfg atomic sched)).
Proof. by destruct (thread_invariant_run atomic sched) as (_ & H & _). Qed.

Lemma threads_started_once_in_order_aux atomic sched :
  exists k,
    (k <= nworkers cfg)%nat /\
    thread_starts (trace (shared (run env cfg atomic sched))) = seq 0 k.
Proof.
  destruct (thread_invariant_run atomic sched) as (_ & _ & Hmain).
  destruct (main_thread (run env cfg atomic sched)) as [i|i| |e].
  - destruct Hmain as (Hi & Hstarts & _). by exists i.
  - destruct Hmain as (_ & Hstarts & _). by exists (nworkers cfg).
  - destruct Hmain as (Hstarts & _). by exists (nworkers cfg).
  - destruct Hmain as (Hstarts & _). exists 0%nat. split; [lia | done].
Qed.

(** X7: the threads are started once each, in the order of the list of
    line 119: the starts logged are those of threads [0 .. k-1], and the
    threads from [k] on have not run. *)
Theorem threads_started_once_in_order atomic sched :
  exists k,
    (k <= nworkers cfg)%nat /\
    thread_starts (trace (shared (run env cfg atomic sched))) = seq 0 k /\
    forall j w,
      (k <= j)%nat ->
      workers (run env cfg atomic sched) !! j = Some w -> w = WNotStarted.
Proof.
  destruct (thread_invariant_run atomic sched) as (Hlen & _ & Hmain).
  assert (forall j w,
            (nworkers cfg <= j)%nat ->
            workers (run env cfg atomic sched) !! j = Some w ->
            w = WNotStarted) as Hpast.
  { intros j w Hj Hw. apply lookup_lt_Some in Hw. lia. }
  destruct (main_thread (run env cfg atomic sched)) as [i|i| |e].
  - destruct Hmain as (Hi & Hstarts & _ & Hrest). by exists i.
  - destruct Hmain as (_ & Hstarts & _). by exists (nworkers cfg).
  - destruct Hmain as (Hstarts & _). by exists (nworkers cfg).
  - destruct Hmain as (Hstarts & _ & Hall). exists 0%nat.
    split; [lia|]. split; [done|]. intros j w _ Hw.
    rewrite Forall_lookup in Hall. by apply (Hall j).
Qed.

(** X8: [run] returns only when every sampler thread has been started
    and has ended; the profiler's [finish], if there is a profiler, is
    then the last call and the only [finish], and nothing happens
    afterwards. *)
Theorem run_returns_after_all_threads atomic sched :
  main_thread (run env cfg atomic sched) = MReturned ->
  length (workers (run env cfg atomic sched)) = nworkers cfg /\
  Forall (fun w => terminated w = true) (workers (run env cfg atomic sched)) /\
  thread_starts (trace (shared (run env cfg atomic sched)))
  = seq 0 (nworkers cfg) /\
  (profiler cfg <> None ->
   count_finishes (trace (shared (run env cfg atomic sched))) = 1%nat /\
   exists calls,
     trace (shared (run env cfg atomic sched)) = calls ++ [EvProfFinish]) /\
  forall a,
    step env cfg atomic (run env cfg atomic sched) a
    = run env cfg atomic sched.
Proof.
  intros Hm.
  destruct (thread_invariant_run atomic sched) as (Hlen & _ & Hmain).
  rewrite Hm in Hmain. destruct Hmain as (Hstarts & Hall & Hfin).
  split; [done|]. split; [done|]. split; [done|]. split.
  - intros Hp. by destruct (profiler cfg).
  - intros [|k].
    + unfold step, main_step. by rewrite Hm.
    + destruct (workers (run env cfg atomic sched) !! k) as [w|] eqn:Hw.
      * apply (step_worker_idle atomic _ k w Hw).
        apply worker_step_terminated.
        rewrite Forall_lookup in Hall. by apply (Hall k).
      * unfold step. by rewrite Hw.
Qed.

(** ** Edge cases of the configuration *)

(** X9: whatever raises in lines 193-203 (the evaluation of the seed, a
    seed without score, the store or the profiler) leaves [run] with
    that exception; no thread is ever started and nothing is called
    afterwards, and what had been called before the exception stands. *)
Theorem startup_exception_aborts_run atomic sched (st : State) e :
  seed_and_register env cfg init_state = (st, inl e) ->
  run env cfg atomic sched
  = mkSystem st (MRaised e) (replicate (nworkers cfg) WNotStarted).
Proof.
  intros Hseed. unfold run.
  assert (boot env cfg
          = mkSystem st (MRaised e) (replicate (nworkers cfg) WNotStarted))
    as -> by (unfold boot; by rewrite Hseed).
  eapply exec_not_started; [done | apply replicate_not_started].
Qed.

(** X10: with [num_samplers <= 0] there is no sampler thread: [run]
    draws no prompt and samples nothing; after the start-up the only
    call it can make is the profiler's [finish]. *)
Theorem no_samplers_no_sampling atomic sched :
  num_samplers cfg <= 0 ->
  workers (run env cfg atomic sched) = [] /\
  (trace (shared (run env cfg atomic sched)) = trace (shared (boot env cfg)) \/
   trace (shared (run env cfg atomic sched))
   = trace (shared (boot env cfg)) ++ [EvProfFinish]).
Proof.
  intros Hn.
  assert (nworkers cfg = 0%nat) as HN by (unfold nworkers; lia).
  destruct (thread_invariant_run atomic sched) as (Hlen & _ & _).
  destruct (threads_started_once_in_order_aux atomic sched)
    as (k & Hk & Hstarts).
  split; [apply length_zero_iff_nil; lia|].
  pose proof (start_invariant_exec atomic sched _ start_invariant_boot)
    as Hinv.
  fold (run env cfg atomic sched) in Hinv.
  destruct Hinv as [(Htr & _)|[(_ & rest & Htr)|(Htr & _)]].
  - by left.
  - rewrite Htr, thread_starts_app in Hstarts. simpl in Hstarts.
    assert (k = 0%nat) as -> by lia. simpl in Hstarts.
    by apply app_eq_nil in Hstarts as [_ ?].
  - by right.
Qed.

Lemma worker_step_budget_exit atomic w (st : State) :
  (worker_step env cfg atomic w st).2 = WReturned BudgetReached ->
  w = WReturned BudgetReached \/ budget_left cfg st = false.
Proof.
  destruct w; unfold worker_step; cbn [fst snd]; try done.
  - destruct (budget_left cfg st); [|by right].
    destruct (sample_batch env cfg st) as [st1 [e|b]]; cbn [fst snd].
    + intros H. by destruct (leave_pending (handle cfg (st1, inl e)))
        as (_ & _ & Hne).
    + intros H. by destruct (next_item_pending (batch_island b)
                               (batch_avg b) (batch_items b)) as (_ & _ & Hne).
  - destruct atomic; cbn [fst snd]; [|done].
    intros H. by destruct (finish_item_cases (tot_sample_nums st) island avg
                             item rest st) as (_ & _ & _ & Hne).
  - intros H. by destruct (finish_item_cases loaded island avg item rest st)
      as (_ & _ & _ & Hne).
  - intros [= ->]. by left.
Qed.

(** X11: with [max_sample_nums = None] the loop test never fails: no
    sampler thread ever leaves its loop through the test, so a run with
    a sampler never completes on its own. *)
Theorem unbounded_budget_never_exhausts atomic sched :
  max_sample_nums cfg = None ->
  Forall (fun w => w <> WReturned BudgetReached)
    (workers (run env cfg atomic sched)) /\
  (0 < num_samplers cfg -> ~ completed (run env cfg atomic sched)).
Proof.
  intros Hmax.
  assert (Forall (fun w : Worker => w <> WReturned BudgetReached)
            (workers (run env cfg atomic sched))) as Hall.
  { unfold run.
    assert (Forall (fun w : Worker => w <> WReturned BudgetReached)
              (workers (boot env cfg))) as Hboot.
    { rewrite boot_workers. by apply Forall_replicate. }
    revert Hboot. generalize (boot env cfg).
    induction sched as [|a sched IH]; intros s Hs; simpl; [done|].
    apply IH. destruct a as [|k]; simpl.
    - unfold main_step. destruct (main_thread s) as [i|i| |e]; try done.
      + destruct (i <? nworkers cfg)%nat; simpl; [|done].
        by apply Forall_insert.
      + destruct (i <? nworkers cfg)%nat; simpl; [|done].
        destruct (workers s !! i) as [w|]; [|done]. by destruct (terminated w).
    - destruct (workers s !! k) as [w|] eqn:Hw; [|done].
      pose proof (worker_step_budget_exit atomic w (shared s)) as Hexit.
      destruct (worker_step env cfg atomic w (shared s)) as [st' w'].
      cbn [fst snd] in *. simpl. apply Forall_insert; [done|].
      intros ->. destruct (Hexit eq_refl) as [->|Hb].
      + rewrite Forall_lookup in Hs. by apply (Hs k _ Hw).
      + unfold budget_left in Hb. by rewrite Hmax in Hb. }
  split; [done|]. intros Hn Hdone. unfold completed in Hdone.
  destruct (thread_invariant_run atomic sched) as (Hlen & _ & _).
  destruct (workers (run env cfg atomic sched)) as [|w ws].
  - simpl in Hlen. unfold nworkers in Hlen. lia.
  - inversion Hall; inversion Hdone; subst. done.
Qed.

(** ** The counter and the executor *)

Lemma handle_pool (r : State * (Exn + unit)) :
  pool (handle cfg r).1 = pool r.1.
Proof.
  destruct r as [st [e|u]]; simpl; [|done].
  destruct e; simpl; try done; by destruct (debug_mode cfg).
Qed.

Lemma leave_pool (r : State * Flow) : pool (leave r).1 = pool r.1.
Proof. by destruct r as [st [| |e]]. Qed.

Lemma sample_batch_pool (st : State) :
  exists ps, pool (sample_batch env cfg st).1 = pool st ++ ps.
Proof.
  unfold sample_batch, bind, call, time_time, ret, raise. simpl.
  destruct (get_prompt env (trace st)) as [e|prompt];
    [exists []; simpl; by rewrite app_nil_r|].
  destruct (draw_samples env _ _) as [e|sampled];
    [exists []; simpl; by rewrite app_nil_r|].
  destruct (length sampled =? 0)%nat;
    [exists []; simpl; by rewrite app_nil_r|].
  match goal with
  | |- context [submit_all env ?ps ?s] =>
      destruct (submit_all_effect ps s) as [k Hk];
      destruct (submit_all env ps s) as [st6 [e|futures]]
  end; simpl in *; subst st6; [by eexists|].
  match goal with
  | |- context [collect env ?fs ?s] =>
      pose proof (collect_state fs s) as Hc;
      destruct (collect env fs s) as [st7 [e|rs]]
  end; simpl in *; subst st7; by eexists.
Qed.

Lemma worker_step_atomic_effect w (st : State) :
  is_loaded w = false ->
  let r := worker_step env cfg true w st in
  is_loaded r.2 = false /\
  tot_sample_nums st <= tot_sample_nums r.1 /\
  (length (pool st) <= length (pool r.1))%nat /\
  tot_sample_nums r.1 + Z.of_nat (pending r.2) + Z.of_nat (length (pool st))
  <= tot_sample_nums st + Z.of_nat (pending w) + Z.of_nat (length (pool r.1)).
Proof.
  intros Hload. cbv zeta.
  destruct w; unfold worker_step; cbn [fst snd].
  - (split; [done|]; split; [simpl; lia|]; split; simpl; lia).
  - destruct (budget_left cfg st); [|(split; [done|]; split; [simpl; lia|]; split; simpl; lia)].
    pose proof (sample_batch_counter st) as Hc.
    destruct (sample_batch_pool st) as [ps Hps].
    destruct (sample_batch env cfg st) as [st1 [e|b]] eqn:Hsb;
      cbn [fst snd] in *.
    + destruct (leave_pending (handle cfg (st1, inl e))) as (Hp & Hl & _).
      rewrite leave_counter, leave_pool, (handle_counter (st1, inl e)),
        (handle_pool (st1, inl e)), Hp, Hl. cbn [fst snd].
      rewrite Hc, Hps, length_app. (split; [done|]; split; [simpl; lia|]; split; simpl; lia).
    + destruct (next_item_pending (batch_island b) (batch_avg b)
                  (batch_items b)) as (Hp & Hl & _).
      rewrite Hp, Hl, Hc.
      apply sample_batch_inr in Hsb
        as (prompt & sampled & _ & _ & _ & Hst1 & _ & _ & Hlen & _).
      rewrite Hlen, Hst1. simpl. rewrite length_app.
      (split; [done|]; split; [simpl; lia|]; split; simpl; lia).
  - destruct (finish_item_cases (tot_sample_nums st) island avg item rest st)
      as (Hc & Hp & Hl & _).
    assert (pool (finish_item env cfg (tot_sample_nums st) island avg item
                    rest st).1 = pool st) as Hpool.
    { unfold finish_item.
      pose proof (register_sample_pool (tot_sample_nums st) island avg item st)
        as Hrp.
      destruct (register_sample env cfg (tot_sample_nums st) island avg item st)
        as [st1 [e|u]]; cbn [fst snd] in *; [|done].
      by rewrite leave_pool, (handle_pool (st1, inl e)). }
    rewrite Hc, Hl, Hpool. (split; [done|]; split; [simpl; lia|]; split; simpl; lia).
  - done.
  - (split; [done|]; split; [simpl; lia|]; split; simpl; lia).
  - (split; [done|]; split; [simpl; lia|]; split; simpl; lia).
Qed.

Lemma seed_and_register_pool (st : State) :
  pool (seed_and_register env cfg st).1 = pool st.
Proof.
  unfold seed_and_register, bind, call, ret, raise.
  repeat case_match; simplify_eq/=; done.
Qed.

Lemma submitted_invariant_boot : submitted_invariant (boot env cfg).
Proof.
  unfold submitted_invariant. rewrite boot_counter, boot_workers. split.
  - by apply Forall_replicate.
  - replace (total_pending (replicate (nworkers cfg) WNotStarted)) with 0%nat
      by (induction (nworkers cfg); simpl; done).
    lia.
Qed.

Lemma submitted_invariant_step (s : System) a :
  submitted_invariant s ->
  submitted_invariant (step env cfg true s a) /\
  tot_sample_nums (shared s) <= tot_sample_nums (shared (step env cfg true s a)).
Proof.
  intros (Hall & Hle). destruct a as [|k].
  - unfold step, main_step.
    destruct (main_thread s) as [i|i| |e]; [| |done|done].
    + destruct (i <? nworkers cfg)%nat; [|done].
      unfold submitted_invariant. simpl. split; [|lia].
      split; [by apply Forall_insert|].
      destruct (workers s !! i) as [w|] eqn:Hw.
      * pose proof (total_pending_insert _ _ _ WAtTest Hw) as Hs.
        simpl in Hs. lia.
      * apply lookup_ge_None in Hw. by rewrite list_insert_ge.
    + destruct (i <? nworkers cfg)%nat.
      * destruct (workers s !! i) as [w|]; [|done]. by destruct (terminated w).
      * unfold submitted_invariant. simpl. split; [|by destruct (profiler cfg)].
        by destruct (profiler cfg).
  - unfold step. destruct (workers s !! k) as [w|] eqn:Hw; [|done].
    pose proof Hall as Hall'. rewrite Forall_lookup in Hall'.
    destruct (worker_step_atomic_effect w (shared s) (Hall' k w Hw))
      as (Hl & Hmono & Hpool & Heff).
    destruct (worker_step env cfg true w (shared s)) as [st' w'].
    cbn [fst snd] in *.
    pose proof (total_pending_insert _ _ _ w' Hw) as Hs.
    unfold submitted_invariant. simpl. split; [|done].
    split; [by apply Forall_insert | lia].
Qed.

Lemma submitted_invariant_exec sched (s : System) :
  submitted_invariant s ->
  submitted_invariant (exec env cfg true sched s) /\
  tot_sample_nums (shared s)
  <= tot_sample_nums (shared (exec env cfg true sched s)).
Proof.
  revert s. induction sched as [|a sched IH]; intros s Hs; simpl; [split; [done|lia]|].
  destruct (submitted_invariant_step s a Hs) as [Hs' Hle].
  destruct (IH _ Hs') as [Hs'' Hle']. split; [done | lia].
Qed.

(** X12: when the increments are atomic the counter never decreases in
    the course of a run. *)
Theorem budget_counter_never_decreases sched sched' :
  tot_sample_nums (shared (run env cfg true sched))
  <= tot_sample_nums (shared (run env cfg true (sched ++ sched'))).
Proof.
  unfold run, exec. rewrite foldl_app.
  apply submitted_invariant_exec.
  apply (submitted_invariant_exec sched), submitted_invariant_boot.
Qed.

(** X13: when the increments are atomic the counter never exceeds the
    number of programs that have been submitted to the executor: only
    evaluated programs are counted. *)
Theorem budget_counter_at_most_submitted sched :
  tot_sample_nums (shared (run env cfg true sched))
  <= Z.of_nat (length (pool (shared (run env cfg true sched)))).
Proof.
  destruct (submitted_invariant_exec sched _ submitted_invariant_boot)
    as [[_ Hle] _].
  fold (run env cfg true sched) in Hle. lia.
Qed.

(** ** Iterations that make no progress *)

Lemma no_registration_registrations (evs : list Event) :
  Forall no_registration evs -> registrations evs = [].
Proof.
  induction 1 as [|ev evs Hev _ IH]; [done|].
  unfold registrations in *. simpl. by destruct ev.
Qed.

Lemma grows_registrations (st st' : State) :
  grows_by no_registration st st' ->
  registrations (trace st') = registrations (trace st).
Proof.
  intros (evs & -> & F).
  by rewrite registrations_app, (no_registration_registrations evs F), app_nil_r.
Qed.

Lemma sample_batch_no_registration :
  emits no_registration (sample_batch env cfg).
Proof. by apply emits_sample_batch_of. Qed.

Lemma handle_leave_no_registration (r : State * (Exn + unit)) :
  registrations (trace (leave (handle cfg r)).1) = registrations (trace r.1).
Proof.
  rewrite leave_trace, registrations_app.
  rewrite (grows_registrations r.1 (handle cfg r).1)
    by by apply handle_grows_of.
  destruct (is_returned _); simpl; by rewrite app_nil_r.
Qed.

(** Where an exception of lines 126-150 comes from. *)
Lemma sample_batch_inl (st st1 : State) e :
  sample_batch env cfg st = (st1, inl e) ->
  get_prompt env (trace st) = inl e \/
  exists prompt,
    get_prompt env (trace st) = inr prompt /\
    (draw_samples env (trace st ++ [EvGetPrompt]) (prompt_contents cfg prompt)
     = inl e \/
     (draw_samples env (trace st ++ [EvGetPrompt]) (prompt_contents cfg prompt)
      = inr [] /\ e = ZeroDivisionError) \/
     exists sampled,
       draw_samples env (trace st ++ [EvGetPrompt])
         (prompt_contents cfg prompt) = inr sampled /\
       convert_samples env cfg sampled <> []).
Proof.
  unfold sample_batch, bind, call, time_time, ret, raise. simpl.
  destruct (get_prompt env (trace st)) as [e0|prompt].
  { intros [= _ ->]. by left. }
  destruct (draw_samples env _ _) as [e0|sampled] eqn:Hd.
  { intros [= _ ->]. right. exists prompt. split; [done|]. by left. }
  destruct sampled as [|func rest].
  { intros [= _ <-]. right. exists prompt. split; [done|]. right; by left. }
  intros H. right. exists prompt. split; [done|]. right; right.
  exists (func :: rest). split; [done|].
  intros Hnone. simpl length in H. simpl Nat.eqb in H. cbv iota in H.
  rewrite Hnone in H. simpl in H. done.
Qed.

Lemma budget_left_counter (st st' : State) :
  tot_sample_nums st' = tot_sample_nums st ->
  budget_left cfg st' = budget_left cfg st.
Proof. unfold budget_left. by intros ->. Qed.

Lemma iteration_without_programs (st : State) :
  debug_mode cfg = false ->
  (forall h, raises_only_exceptions (get_prompt env h)) ->
  (forall h prompts, raises_only_exceptions (draw_samples env h prompts)) ->
  (forall func, sample_to_program env func (template_program cfg) = None) ->
  (iteration env cfg st).2 = Continue /\
  tot_sample_nums (iteration env cfg st).1 = tot_sample_nums st.
Proof.
  intros Hd Hgp Hds Hconv. unfold iteration, try_block, bind.
  pose proof (sample_batch_counter st) as Hc.
  destruct (sample_batch env cfg st) as [st1 [e|b]] eqn:Hsb; cbn [fst] in Hc.
  - assert (is_Exception e = true) as He.
    { apply sample_batch_inl in Hsb
        as [Hp|(prompt & Hp & [Hdr|[[_ ->]|(sampled & _ & Hne)]])].
      - by apply (Hgp _ _ Hp).
      - by apply (Hds _ _ _ Hdr).
      - done.
      - destruct Hne. apply convert_samples_none. auto. }
    rewrite exception_swallowed_without_debug by done. done.
  - apply sample_batch_inr in Hsb
      as (prompt & sampled & _ & _ & _ & _ & _ & _ & Hlen & _).
    rewrite (convert_samples_none sampled) in Hlen by auto.
    destruct (batch_items b); [|done]. simpl. done.
Qed.

(** X14: when no candidate ever converts to a program (and the store
    and the sampler raise nothing but [Exception]s), a sampler thread
    without [debug_mode] never leaves its loop: every iteration ends in
    [continue] with the counter where it was, so no number of
    iterations brings [_sample_evaluate_register] to return. *)
Theorem unconvertible_candidates_never_terminate fuel (st : State) :
  debug_mode cfg = false ->
  (forall h, raises_only_exceptions (get_prompt env h)) ->
  (forall h prompts, raises_only_exceptions (draw_samples env h prompts)) ->
  (forall func, sample_to_program env func (template_program cfg) = None) ->
  budget_left cfg st = true ->
  sample_evaluate_register env cfg fuel st = None.
Proof.
  intros Hd Hgp Hds Hconv. revert st.
  induction fuel as [|fuel IH]; intros st Hb; simpl; rewrite Hb; [done|].
  destruct (iteration_without_programs st Hd Hgp Hds Hconv) as [Hflow Hc].
  destruct (iteration env cfg st) as [st' fl]. cbn [fst snd] in *.
  subst fl. simpl. apply IH. by rewrite (budget_left_counter st st').
Qed.

Lemma main_step_shared (s : System) :
  tot_sample_nums (shared (main_step cfg s)) = tot_sample_nums (shared s) /\
  pool (shared (main_step cfg s)) = pool (shared s) /\
  registrations (trace (shared (main_step cfg s)))
  = registrations (trace (shared s)).
Proof.
  unfold main_step.
  repeat case_match; simpl; rewrite ?registrations_app, ?app_nil_r; done.
Qed.

Lemma main_step_idle_workers (s : System) :
  Forall (fun w : Worker => pending w = 0%nat) (workers s) ->
  Forall (fun w : Worker => pending w = 0%nat) (workers (main_step cfg s)).
Proof.
  intros H. unfold main_step.
  repeat case_match; simpl; try done. by apply Forall_insert.
Qed.

Lemma sample_batch_no_prompts (st : State) :
  samples_per_prompt cfg <= 0 ->
  one_candidate_per_prompt env ->
  exists st1 e,
    sample_batch env cfg st = (st1, inl e) /\
    tot_sample_nums st1 = tot_sample_nums st /\
    pool st1 = pool st /\
    registrations (trace st1) = registrations (trace st).
Proof.
  intros Hspp Hone.
  pose proof (sample_batch_counter st) as Hc.
  pose proof (sample_batch_no_registration st) as Hr.
  apply grows_registrations in Hr.
  destruct (sample_batch env cfg st) as [st1 [e|b]] eqn:Hsb; cbn [fst] in *.
  - exists st1, e. split; [done|]. split; [done|]. split; [|done].
    revert Hsb. unfold sample_batch, bind, call, time_time, ret, raise. simpl.
    destruct (get_prompt env (trace st)) as [e0|prompt]; [by intros [= <- _]|].
    destruct (draw_samples env _ _) as [e0|sampled] eqn:Hd;
      [by intros [= <- _]|].
    apply Hone in Hd. unfold prompt_contents in Hd.
    rewrite length_replicate in Hd.
    destruct sampled as [|func rest]; [by intros [= <- _]|].
    simpl in Hd. lia.
  - apply sample_batch_inr in Hsb as (prompt & sampled & _ & Hd & Hne & _).
    apply Hone in Hd. unfold prompt_contents in Hd.
    rewrite length_replicate in Hd. destruct sampled; [done|]. simpl in Hd. lia.
Qed.

(** X15: with [samples_per_prompt <= 0] (and a sampler that answers at
    most one candidate per prompt) nothing is ever sampled: in every
    run the counter stays at 0, no program is submitted to the executor
    and the store receives no registration besides the seed's. *)
Theorem no_samples_per_prompt_no_progress atomic sched :
  samples_per_prompt cfg <= 0 ->
  one_candidate_per_prompt env ->
  tot_sample_nums (shared (run env cfg atomic sched)) = 0 /\
  pool (shared (run env cfg atomic sched)) = [] /\
  registrations (trace (shared (run env cfg atomic sched)))
  = registrations (trace (shared (boot env cfg))).
Proof.
  intros Hspp Hone. unfold run.
  assert (pool (shared (boot env cfg)) = []) as Hpool0.
  { unfold boot. pose proof (seed_and_register_pool init_state) as H.
    by destruct (seed_and_register env cfg init_state) as [st [e|u]]. }
  assert (Forall (fun w : Worker => pending w = 0%nat) (workers (boot env cfg)))
    as Hw0.
  { rewrite boot_workers. by apply Forall_replicate. }
  pose proof boot_counter as Hc0.
  remember (registrations (trace (shared (boot env cfg)))) as R0 eqn:HR0.
  assert (registrations (trace (shared (boot env cfg))) = R0) as HRb by done.
  clear HR0. revert Hc0 Hpool0 Hw0 HRb. generalize (boot env cfg).
  induction sched as [|a sched IH]; intros s Hc Hp Hw HR; simpl; [done|].
  destruct a as [|k].
  - destruct (main_step_shared s) as (Hc' & Hp' & Hr').
    apply IH; simpl; [congruence | congruence | | congruence].
    by apply main_step_idle_workers.
  - simpl. destruct (workers s !! k) as [w|] eqn:Hwk; [|by apply IH].
    pose proof Hw as Hw'. rewrite Forall_lookup in Hw'.
    specialize (Hw' k w Hwk).
    assert (let r := worker_step env cfg atomic w (shared s) in
            tot_sample_nums r.1 = tot_sample_nums (shared s) /\
            pool r.1 = pool (shared s) /\
            registrations (trace r.1) = registrations (trace (shared s)) /\
            pending r.2 = 0%nat) as Hstep.
    { destruct w; unfold worker_step; cbv zeta; cbn [fst snd]; try done.
      destruct (budget_left cfg (shared s)).
      - destruct (sample_batch_no_prompts (shared s) Hspp Hone)
          as (st1 & e & Hsb & Hc1 & Hp1 & Hr1).
        rewrite Hsb.
        destruct (leave_pending (handle cfg (st1, inl e))) as (Hpe & _).
        rewrite leave_counter, leave_pool, (handle_counter (st1, inl e)),
          (handle_pool (st1, inl e)), handle_leave_no_registration.
        done.
      - simpl. by rewrite registrations_app, app_nil_r. }
    destruct (worker_step env cfg atomic w (shared s)) as [st' w'].
    cbn [fst snd] in Hstep. destruct Hstep as (Hc' & Hp' & Hr' & Hpe').
    apply IH; simpl; [congruence | congruence | by apply Forall_insert
                     | congruence].
Qed.

(** ** Where a registration comes from *)

Lemma register_sample_provenance loaded island avg program sc eval_time
    (st : State) :
  exists evs,
    trace (register_sample env cfg loaded island avg
             (program, sc, eval_time) st).1 = trace st ++ evs /\
    forall f i s,
      (f, i, s) ∈ registrations evs ->
      i = island /\ s = sc /\ program_to_function env program = Some f.
Proof.
  unfold register_sample, bind, store_tot, call, ret, log; simpl.
  repeat case_match; simplify_eq/=;
    eexists;
    (split;
     [first [ symmetry; apply app_nil_r
            | rewrite <- ?app_assoc; reflexivity ]
     | simpl; intros f' i' s' Hin;
       repeat (apply elem_of_cons in Hin as [Hin|Hin];
               [by inversion Hin; subst|]);
       by apply elem_of_nil in Hin ]).
Qed.

Lemma register_all_provenance island avg items (st : State) :
  exists evs,
    trace (register_all env cfg island avg items st).1 = trace st ++ evs /\
    forall f i s,
      (f, i, s) ∈ registrations evs ->
      i = island /\
      exists p t, (p, s, t) ∈ items /\ program_to_function env p = Some f.
Proof.
  revert st. induction items as [|item rest IH]; intros st; simpl.
  - exists []. split; [by rewrite app_nil_r|]. simpl. intros ??? Hin.
    by apply elem_of_nil in Hin.
  - unfold bind, loop_item at 1. destruct item as [[p sc] t].
    destruct (register_sample_provenance (tot_sample_nums st) island avg
                p sc t st) as (e1 & H1 & R1).
    destruct (register_sample env cfg (tot_sample_nums st) island avg
                (p, sc, t) st) as [st1 [e|u]]; simpl in *.
    + exists e1. split; [done|]. intros f i s Hin.
      destruct (R1 f i s Hin) as (-> & -> & Hf). split; [done|].
      exists p, t. split; [apply list_elem_of_here | done].
    + destruct (IH st1) as (e2 & H2 & R2). exists (e1 ++ e2). split.
      * by rewrite H2, H1, app_assoc.
      * intros f i s Hin. rewrite registrations_app in Hin.
        apply elem_of_app in Hin as [Hin|Hin].
        -- destruct (R1 f i s Hin) as (-> & -> & Hf). split; [done|].
           exists p, t. split; [apply list_elem_of_here | done].
        -- destruct (R2 f i s Hin) as (-> & p' & t' & Hitem & Hf).
           split; [done|]. exists p', t'.
           split; [by apply list_elem_of_further | done].
Qed.

(** X16: whatever way an iteration ends, each function it registers in
    the store comes from a program that the iteration itself submitted
    to the executor, is registered with the score that the evaluation
    of that very program returned, and goes to the island of the prompt
    the iteration drew. *)
Theorem registration_provenance (st st' : State) r prompt :
  get_prompt env (trace st) = inr prompt ->
  try_block env cfg st = (st', r) ->
  exists evs,
    trace st' = trace st ++ evs /\
    forall f i s,
      (f, i, s) ∈ registrations evs ->
      i = island_id prompt /\
      exists k p t,
        pool st' !! (length (pool st) + k)%nat = Some p /\
        future_result env (length (pool st) + k)%nat p = inr (s, t) /\
        program_to_function env p = Some f.
Proof.
  intros Hp Htry. unfold try_block, bind in Htry.
  pose proof (sample_batch_no_registration st) as Hsb0.
  destruct (sample_batch env cfg st) as [st1 [e|b]] eqn:Hsb; cbn [fst] in Hsb0.
  - inversion Htry; subst st' r. destruct Hsb0 as (evs & Hevs & F).
    exists evs. split; [done|]. intros f i s Hin.
    rewrite (no_registration_registrations evs F) in Hin.
    by apply elem_of_nil in Hin.
  - destruct Hsb0 as (evs1 & Hevs1 & F1).
    apply sample_batch_inr in Hsb
      as (prompt' & sampled & Hp' & _ & _ & Hst1 & Hisl & _ & Hlen & Hitems).
    rewrite Hp in Hp'. inversion Hp'; subst prompt'.
    destruct (register_all_provenance (batch_island b) (batch_avg b)
                (batch_items b) st1) as (evs2 & Hevs2 & R2).
    pose proof (register_all_pool (batch_island b) (batch_avg b)
                  (batch_items b) st1) as Hpool.
    rewrite Htry in Hevs2, Hpool. cbn [fst] in Hevs2, Hpool.
    exists (evs1 ++ evs2). split; [by rewrite Hevs2, Hevs1, app_assoc|].
    intros f i s Hin. rewrite registrations_app in Hin.
    rewrite (no_registration_registrations evs1 F1) in Hin. simpl in Hin.
    destruct (R2 f i s Hin) as (-> & p & t & Hitem & Hf).
    split; [done|].
    apply list_elem_of_lookup in Hitem as [k Hk].
    assert (k < length (convert_samples env cfg sampled))%nat as Hlt.
    { rewrite <- Hlen. by eapply lookup_lt_Some. }
    destruct (lookup_lt_is_Some_2 _ _ Hlt) as [p' Hp'k].
    destruct (Hitems k p' Hp'k) as (res & Hres & Hk').
    unfold Item in *. rewrite Hk in Hk'. inversion Hk'; subst p s t.
    exists k, p', res.2. split; [|split; [by destruct res | done]].
    rewrite Hpool, Hst1. simpl. rewrite lookup_app_r by lia.
    by replace (length (pool st) + k - length (pool st))%nat with k by lia.
Qed.

(** ** Exceptions in the registration loop *)

Lemma register_all_inl island avg items (st st' : State) e :
  register_all env cfg island avg items st = (st', inl e) ->
  exists k,
    (k < length items)%nat /\
    tot_sample_nums st' = tot_sample_nums st + Z.of_nat k + 1.
Proof.
  revert st. induction items as [|item rest IH]; intros st; simpl; [done|].
  intros H. apply bind_cases in H as [(st1 & [] & H1 & H2)|(e' & H1 & _)].
  - destruct (IH _ H2) as (k & Hk & Hc). exists (S k). split; [lia|].
    pose proof (loop_item_counter island avg item st) as Hc1.
    rewrite H1 in Hc1. simpl in Hc1. lia.
  - exists 0%nat. split; [lia|].
    pose proof (loop_item_counter island avg item st) as Hc1.
    rewrite H1 in Hc1. simpl in Hc1. lia.
Qed.

(** X17: when a call of the registration loop raises an [Exception]
    and [debug_mode] is off, the rest of the batch is dropped: the
    iteration ends in [continue] with the counter advanced by the
    number of triples taken so far, at least one and at most the size
    of the batch, although every program of the batch has been
    submitted and evaluated. *)
Theorem failed_registration_cuts_batch_short (st st1 st' : State) b e :
  sample_batch env cfg st = (st1, inr b) ->
  register_all env cfg (batch_island b) (batch_avg b) (batch_items b) st1
  = (st', inl e) ->
  is_Exception e = true ->
  debug_mode cfg = false ->
  iteration env cfg st = (st', Continue) /\
  (exists k,
     (k < length (batch_items b))%nat /\
     tot_sample_nums st' = tot_sample_nums st + Z.of_nat k + 1) /\
  length (pool st') = (length (pool st) + length (batch_items b))%nat.
Proof.
  intros Hsb Hreg He Hd. split; [|split].
  - unfold iteration, try_block. rewrite (bind_inr _ _ _ _ _ Hsb), Hreg.
    by apply exception_swallowed_without_debug.
  - destruct (register_all_inl _ _ _ _ _ _ Hreg) as (k & Hk & Hc).
    exists k. split; [done|].
    pose proof (sample_batch_counter st) as Hc1. rewrite Hsb in Hc1.
    simpl in Hc1. lia.
  - pose proof (register_all_pool (batch_island b) (batch_avg b)
                  (batch_items b) st1) as Hpool.
    rewrite Hreg in Hpool. simpl in Hpool. rewrite Hpool.
    apply sample_batch_inr in Hsb
      as (prompt & sampled & _ & _ & _ & -> & _ & _ & Hlen & _).
    simpl. rewrite length_app. lia.
Qed.

(** ** Termination of the loop *)

Lemma submit_all_ok programs (st : State) :
  (forall h p, submit_raises env h p = None) ->
  submit_all env programs st
  = (mkState (tot_sample_nums st) (pool st ++ programs) (trace st),
     inr (seq (length (pool st)) (length programs))).
Proof.
  intros Hs. revert st. induction programs as [|p rest IH]; intros st; simpl.
  - unfold ret. destruct st; simpl. by rewrite app_nil_r.
  - unfold bind, submit. rewrite Hs, IH. simpl. unfold ret.
    rewrite <- app_assoc, length_app. simpl.
    by replace (length (pool st) + 1)%nat with (S (length (pool st))) by lia.
Qed.

Lemma collect_ok futures (st : State) :
  (forall f p, exists r, future_result env f p = inr r) ->
  Forall (fun f => (f < length (pool st))%nat) futures ->
  exists rs, collect env futures st = (st, inr rs).
Proof.
  intros Hf. induction 1 as [|f rest Hlt _ [rs IH]]; simpl.
  - by eexists.
  - unfold bind, result.
    destruct (lookup_lt_is_Some_2 _ _ Hlt) as [p Hp]. rewrite Hp.
    destruct (Hf f p) as [r ->]. rewrite IH. by eexists.
Qed.

Lemma sample_batch_ok (st : State) :
  well_behaved env cfg ->
  exists st1 b,
    sample_batch env cfg st = (st1, inr b) /\ batch_items b <> [].
Proof.
  intros (Hgp & Hds & Hsub & Hres & _).
  destruct (Hgp (trace st)) as [prompt Hp].
  destruct (Hds (trace st ++ [EvGetPrompt]) prompt) as (sampled & Hd & Hne).
  assert (exists st1 b, sample_batch env cfg st = (st1, inr b))
    as (st1 & b & Hsb).
  { unfold sample_batch.
    erewrite bind_inr; [|unfold call; rewrite Hp; reflexivity]. cbv zeta.
    erewrite bind_inr; [|reflexivity].
    erewrite bind_inr; [|unfold call; simpl; rewrite Hd; reflexivity].
    erewrite bind_inr; [|reflexivity].
    destruct sampled as [|func rest]; [done|].
    erewrite bind_inr; [|reflexivity].
    erewrite bind_inr; [|by apply submit_all_ok].
    match goal with
    | |- context [bind (collect env ?fs) _ ?s] =>
        destruct (collect_ok fs s Hres) as [rs Hrs]
    end.
    { apply Forall_seq. intros j Hj. unfold log in *. simpl in *.
      rewrite length_app. lia. }
    erewrite bind_inr; [|exact Hrs]. by eexists _, _. }
  exists st1, b. split; [done|].
  apply sample_batch_inr in Hsb
    as (prompt' & sampled' & Hp' & Hd' & _ & _ & _ & _ & Hlen & _).
  rewrite Hp in Hp'. inversion Hp'; subst prompt'.
  rewrite Hd in Hd'. inversion Hd'; subst sampled'.
  intros Hnil. rewrite Hnil in Hlen. simpl in Hlen.
  symmetry in Hlen. by apply length_zero_iff_nil in Hlen.
Qed.

Lemma register_sample_ok loaded island avg item (st : State) :
  well_behaved env cfg ->
  (register_sample env cfg loaded island avg item st).2 = inr tt.
Proof.
  intros (_ & _ & _ & _ & Hreg & Hprof & Hdb).
  destruct item as [[program sc] eval_time].
  unfold register_sample, bind, store_tot, call, ret. simpl.
  destruct (program_to_function env program) as [f|]; [|done].
  destruct sc as [s|]; simpl; rewrite ?Hreg; simpl;
    (destruct (profiler cfg) as [[|]|]; simpl; rewrite ?Hprof; simpl;
     rewrite ?Hdb; done).
Qed.

Lemma register_all_ok island avg items (st : State) :
  well_behaved env cfg ->
  (register_all env cfg island avg items st).2 = inr tt.
Proof.
  intros Hwb. revert st. induction items as [|item rest IH]; intros st; simpl;
    [done|].
  unfold bind, loop_item at 1.
  pose proof (register_sample_ok (tot_sample_nums st) island avg item st Hwb)
    as Hok.
  destruct (register_sample env cfg (tot_sample_nums st) island avg item st)
    as [st1 [e|[]]]; simpl in Hok; [done|]. apply IH.
Qed.

(** With collaborators that do not raise and at least one convertible
    candidate per batch, an iteration ends in [continue] and has counted
    between one and [samples_per_prompt] samples. *)
Lemma iteration_productive (st : State) :
  well_behaved env cfg ->
  one_candidate_per_prompt env ->
  exists st',
    iteration env cfg st = (st', Continue) /\
    tot_sample_nums st < tot_sample_nums st' /\
    tot_sample_nums st' <= tot_sample_nums st + samples_per_prompt cfg.
Proof.
  intros Hwb Hone.
  destruct (sample_batch_ok st Hwb) as (st1 & b & Hsb & Hne).
  pose proof (register_all_ok (batch_island b) (batch_avg b) (batch_items b)
                st1 Hwb) as Hok.
  destruct (register_all env cfg (batch_island b) (batch_avg b)
              (batch_items b) st1) as [st' r] eqn:Hreg.
  simpl in Hok. subst r. exists st'. split.
  - unfold iteration, try_block. by rewrite (bind_inr _ _ _ _ _ Hsb), Hreg.
  - pose proof (register_all_counter _ _ _ _ _ Hreg) as Hc.
    pose proof (sample_batch_counter st) as Hc1. rewrite Hsb in Hc1.
    simpl in Hc1.
    pose proof (batch_items_length _ _ _ Hone Hsb) as Hlen.
    destruct (batch_items b) as [|item rest]; [done|]. simpl in *. lia.
Qed.

(** X18: with a ceiling [m], collaborators that do not raise and a
    sampler of which at least one candidate per batch converts,
    [_sample_evaluate_register] run by a single thread terminates: after
    at most [m - _tot_sample_nums] iterations it shuts the executor down
    and returns through the loop test, with the counter at [m] or above
    and below [m + samples_per_prompt]. *)
Theorem worker_terminates m fuel (st : State) :
  max_sample_nums cfg = Some m ->
  well_behaved env cfg ->
  one_candidate_per_prompt env ->
  (Z.to_nat (m - tot_sample_nums st) <= fuel)%nat ->
  exists st',
    sample_evaluate_register env cfg fuel st
    = Some (shutdown st', WReturned BudgetReached) /\
    m <= tot_sample_nums st' /\
    (tot_sample_nums st < m ->
     tot_sample_nums st' < m + samples_per_prompt cfg) /\
    (m <= tot_sample_nums st -> st' = st).
Proof.
  intros Hmax Hwb Hone. revert st.
  induction fuel as [|fuel IH]; intros st Hfuel.
  - exists st. simpl. unfold budget_left. rewrite Hmax.
    destruct (tot_sample_nums st <? m) eqn:Hlt.
    + apply Z.ltb_lt in Hlt. lia.
    + apply Z.ltb_ge in Hlt. split; [done|]. split; [done|]. split; [lia|done].
  - simpl. unfold budget_left. rewrite Hmax.
    destruct (tot_sample_nums st <? m) eqn:Hlt.
    + apply Z.ltb_lt in Hlt.
      destruct (iteration_productive st Hwb Hone) as (st1 & Hit & Hlo & Hhi).
      rewrite Hit. simpl.
      destruct (IH st1) as (st' & Hret & Hm & Hlt' & Hge); [lia|].
      exists st'. split; [done|]. split; [done|]. split; [|lia].
      intros _. destruct (Z_lt_le_dec (tot_sample_nums st1) m) as [H1|H1].
      * by apply Hlt'.
      * rewrite (Hge H1). lia.
    + apply Z.ltb_ge in Hlt. exists st.
      split; [done|]. split; [done|]. split; [lia|done].
Qed.

(** ** What an iteration counts *)

Lemma register_all_cases island avg items (st st' : State) r :
  register_all env cfg island avg items st = (st', r) ->
  match r with
  | inr _ =>
      tot_sample_nums st' = tot_sample_nums st + Z.of_nat (length items)
  | inl e =>
      exists taken item rest st1,
        items = taken ++ item :: rest /\
        register_all env cfg island avg taken st = (st1, inr tt) /\
        loop_item env cfg island avg item st1 = (st', inl e) /\
        tot_sample_nums st'
        = tot_sample_nums st + Z.of_nat (length taken) + 1
  end.
Proof.
  revert st. induction items as [|item rest IH]; intros st; simpl.
  - unfold ret. intros [= <- <-]. simpl. lia.
  - intros H.
    pose proof (loop_item_counter island avg item st) as Hc.
    apply bind_cases in H as [(st1 & [] & H1 & H2)|(e & H1 & ->)];
      rewrite H1 in Hc; simpl in Hc.
    + apply IH in H2. destruct r as [e|u].
      * destruct H2 as (taken & item' & rest' & st2 & -> & Htaken & Hitem & Htot).
        exists (item :: taken), item', rest', st2. split; [done|]. split.
        { simpl. by rewrite (bind_inr _ _ _ _ _ H1). }
        split; [done|]. simpl length. lia.
      * simpl length. lia.
    + exists [], item, rest, st. split; [done|]. split; [done|].
      split; [done|]. simpl. lia.
Qed.

Lemma step_in_loop_counter (s : System) i island avg item rest :
  workers s !! i = Some (WInLoop island avg item rest) ->
  tot_sample_nums (shared (step env cfg true s (RunWorker i)))
  = tot_sample_nums (shared s) + 1.
Proof.
  intros Hw. unfold step. rewrite Hw. cbn [worker_step].
  pose proof (finish_item_cases (tot_sample_nums (shared s)) island avg item
                rest (shared s)) as [Hc _].
  by destruct (finish_item env cfg _ island avg item rest (shared s)).
Qed.

Lemma step_loaded_counter atomic (s : System) i loaded island avg item rest :
  workers s !! i = Some (WLoaded loaded island avg item rest) ->
  tot_sample_nums (shared (step env cfg atomic s (RunWorker i))) = loaded + 1.
Proof.
  intros Hw. unfold step. rewrite Hw. cbn [worker_step].
  pose proof (finish_item_cases loaded island avg item rest (shared s))
    as [Hc _].
  by destruct (finish_item env cfg loaded island avg item rest (shared s)).
Qed.

(** C2, as amended: every pass of the registration loop writes the
    counter, with the value it read plus one, before the program is
    converted back and whether or not that conversion succeeds.  When
    nothing runs between the read and the write, a thread that takes a
    triple raises the shared counter by exactly one.  An iteration that
    no other thread interferes with counts the triples its loop takes:
    none when the [try] block raises before the loop, every program of
    the batch when the loop runs to its end, and the programs up to and
    including the one at which a call raised when the loop is cut
    short. *)
Theorem budget_counter_counts_every_evaluated_program :
  (forall loaded island avg item (st : State),
     tot_sample_nums (register_sample env cfg loaded island avg item st).1
     = loaded + 1) /\
  (forall (s : System) i island avg item rest,
     workers s !! i = Some (WInLoop island avg item rest) ->
     tot_sample_nums (shared (step env cfg true s (RunWorker i)))
     = tot_sample_nums (shared s) + 1) /\
  (forall atomic (s : System) i loaded island avg item rest,
     workers s !! i = Some (WLoaded loaded island avg item rest) ->
     tot_sample_nums (shared (step env cfg atomic s (RunWorker i)))
     = loaded + 1) /\
  (forall (st st' : State) r,
     try_block env cfg st = (st', r) ->
     (exists e,
        sample_batch env cfg st = (st', inl e) /\ r = inl e /\
        tot_sample_nums st' = tot_sample_nums st) \/
     (exists st1 b,
        sample_batch env cfg st = (st1, inr b) /\
        tot_sample_nums st1 = tot_sample_nums st /\
        match r with
        | inr _ =>
            tot_sample_nums st'
            = tot_sample_nums st + Z.of_nat (length (batch_items b))
        | inl e =>
            exists taken item rest st2,
              batch_items b = taken ++ item :: rest /\
              register_all env cfg (batch_island b) (batch_avg b) taken st1
              = (st2, inr tt) /\
              loop_item env cfg (batch_island b) (batch_avg b) item st2
              = (st', inl e) /\
              tot_sample_nums st'
              = tot_sample_nums st + Z.of_nat (length taken) + 1
        end)).
Proof.
  split; [apply register_sample_counter|].
  split; [apply step_in_loop_counter|].
  split; [apply step_loaded_counter|].
  intros st st' r H. unfold try_block in H.
  pose proof (sample_batch_counter st) as Hc.
  apply bind_cases in H as [(st1 & b & H1 & H2)|(e & H1 & ->)];
    rewrite H1 in Hc; simpl in Hc.
  - right. exists st1, b. split; [done|]. split; [done|].
    apply register_all_cases in H2. rewrite <- Hc. exact H2.
  - left. by exists e.
Qed.

(** ** What an iteration reports *)

Lemma reports_app (tr1 tr2 : list Event) :
  reports (tr1 ++ tr2) = reports tr1 ++ reports tr2.
Proof. apply omap_app. Qed.

Lemma omap_cons_option_list {A B} (f : A -> option B) x l :
  omap f (x :: l) = option_list (f x) ++ omap f l.
Proof. simpl. by destruct (f x). Qed.

(** One pass of the loop body with a profiler: the calls it makes to
    the profiler and to the store are those of the triple, all of them
    when the pass ends without exception, the first of them when a call
    raises. *)
Lemma register_sample_reports loaded island avg item kind (st : State) :
  profiler cfg = Some kind ->
  exists evs,
    trace (register_sample env cfg loaded island avg item st).1
    = trace st ++ evs /\
    reports evs `prefix_of` option_list (report_of env avg item) /\
    registrations evs `prefix_of` option_list (registration_of env island item) /\
    ((register_sample env cfg loaded island avg item st).2 = inr tt ->
     reports evs = option_list (report_of env avg item) /\
     registrations evs = option_list (registration_of env island item)).
Proof.
  intros Hprof. destruct item as [[program sc] eval_time].
  unfold register_sample, report_of, registration_of, bind, store_tot, call,
    ret, log; simpl.
  rewrite Hprof.
  repeat case_match; simplify_eq/=;
    eexists;
    (split;
     [first [ symmetry; apply app_nil_r
            | rewrite <- ?app_assoc; reflexivity ]
     | simpl;
       repeat split;
       first [ done | reflexivity | apply prefix_nil ] ]).
Qed.

Lemma register_all_reports island avg items kind (st : State) :
  profiler cfg = Some kind ->
  exists evs,
    trace (register_all env cfg island avg items st).1 = trace st ++ evs /\
    reports evs `prefix_of` omap (report_of env avg) items /\
    registrations evs `prefix_of` omap (registration_of env island) items /\
    ((register_all env cfg island avg items st).2 = inr tt ->
     reports evs = omap (report_of env avg) items /\
     registrations evs = omap (registration_of env island) items).
Proof.
  intros Hprof. revert st.
  induction items as [|item rest IH]; intros st.
  - exists []. simpl. by rewrite app_nil_r.
  - rewrite !omap_cons_option_list. simpl. unfold bind, loop_item at 1 2.
    destruct (register_sample_reports (tot_sample_nums st) island avg item
                kind st Hprof) as (e1 & H1 & P1 & R1 & E1).
    destruct (register_sample env cfg (tot_sample_nums st) island avg item st)
      as [st1 [e|[]]]; simpl in *.
    + exists e1. split; [done|].
      split; [by apply prefix_app_r|]. split; [by apply prefix_app_r|done].
    + destruct (E1 eq_refl) as [E1r E1s].
      destruct (IH st1) as (e2 & H2 & P2 & R2 & E2).
      exists (e1 ++ e2). rewrite reports_app, registrations_app, E1r, E1s.
      split; [by rewrite H2, H1, app_assoc|].
      split; [by apply prefix_app|]. split; [by apply prefix_app|].
      intros Hr. destruct (E2 Hr) as [-> ->]. done.
Qed.

(** C8, as amended: a triple of the batch that the registration loop
    takes, whose program converts back to a function and whose store
    call (made when the score is not [None]) does not raise, is handed
    to the profiler exactly once, carrying its score, the average
    sampling time and its evaluation time, whether or not it was
    registered; with score [None] there is one report and no
    registration.  An iteration whose [try] block ends without
    exception has reported every triple of its batch whose program
    converts, once each and in the order of the batch, and registered
    those with a score; an iteration that an exception cuts short has
    made a leading part of these calls and no other. *)
Theorem converted_sample_is_reported :
  (forall loaded island avg program sc eval_time f kind (st : State),
     program_to_function env program = Some f ->
     profiler cfg = Some kind ->
     sc = None \/ register_function_raises env (trace st) f island sc = None ->
     exists evs,
       trace (register_sample env cfg loaded island avg
                (program, sc, eval_time) st).1 = trace st ++ evs /\
       reports evs
       = [mkFunction (name f) (body f) sc (Some avg) (Some eval_time)] /\
       registrations evs = match sc with
                           | Some _ => [(f, island, sc)]
                           | None => []
                           end) /\
  (forall kind (st st1 st' : State) b r,
     profiler cfg = Some kind ->
     sample_batch env cfg st = (st1, inr b) ->
     try_block env cfg st = (st', r) ->
     exists evs,
       trace st' = trace st1 ++ evs /\
       reports evs `prefix_of` omap (report_of env (batch_avg b)) (batch_items b) /\
       registrations evs
         `prefix_of` omap (registration_of env (batch_island b)) (batch_items b) /\
       (r = inr tt ->
        reports evs = omap (report_of env (batch_avg b)) (batch_items b) /\
        registrations evs
        = omap (registration_of env (batch_island b)) (batch_items b))) /\
  (forall avg program sc eval_time reported,
     report_of env avg (program, sc, eval_time) = Some reported <->
     exists f,
       program_to_function env program = Some f /\
       reported = mkFunction (name f) (body f) sc (Some avg) (Some eval_time)) /\
  (forall island program sc eval_time registered,
     registration_of env island (program, sc, eval_time) = Some registered <->
     exists f s,
       program_to_function env program = Some f /\ sc = Some s /\
       registered = (f, island, Some s)).
Proof.
  split; [apply register_sample_reported|]. split.
  - intros kind st st1 st' b r Hprof Hsb Htry.
    unfold try_block in Htry. rewrite (bind_inr _ _ _ _ _ Hsb) in Htry.
    destruct (register_all_reports (batch_island b) (batch_avg b)
                (batch_items b) kind st1 Hprof) as (evs & Htr & P & R & E).
    rewrite Htry in Htr, E. simpl in Htr, E. by exists evs.
  - split.
    + intros avg program sc eval_time reported. unfold report_of, annotate.
      destruct (program_to_function env program) as [f|]; split.
      * intros [= <-]. by exists f.
      * by intros (f' & [= <-] & ->).
      * done.
      * by intros (f' & [=] & _).
    + intros island program sc eval_time registered. unfold registration_of.
      destruct (program_to_function env program) as [f|], sc as [s|]; split;
        try done.
      * intros [= <-]. by exists f, s.
      * by intros (f' & s' & [= <-] & [= <-] & ->).
      * by intros (f' & s' & _ & [=] & _).
      * by intros (f' & s' & [=] & _).
      * by intros (f' & s' & [=] & _).
Qed.

End Properties.

(** * The properties on concrete runs *)

Import Scenario.
Local Open Scope string_scope.

Lemma answer_one_candidate_per_prompt samples :
  one_candidate_per_prompt (scenario_env (answer samples)).
Proof.
  intros h prompts sampled H. inversion H. rewrite length_take. lia.
Qed.

(** The first scenario of section 8 of the specification: one sampler,
    two samples per prompt, a budget of two, both candidates valid.  The
    thread registers two functions, the counter ends at two and the loop
    is left through its test. *)
Example one_sampler_two_samples :
  let cfg := scenario_cfg seed (Some 2) 1 2 false None in
  exists st,
    sample_evaluate_register env cfg 2 st0 = Some (st, WReturned BudgetReached) /\
    tot_sample_nums st = 2 /\
    registrations (trace st)
    = [(text_to_function "a", Some 0, Some 1);
       (text_to_function "b", Some 0, Some 1)].
Proof. eexists. repeat split; reflexivity. Qed.

(** The second scenario: one candidate fails conversion and the other
    evaluates to no score.  The counter goes up by one, nothing is
    registered and the profiler gets one function without score. *)
Example one_failed_one_unscored :
  let env := scenario_env (answer ["bad"; "invalid"]) in
  let cfg := scenario_cfg seed (Some 2) 1 2 false (Some ProfilerBase) in
  let st := (iteration env cfg st0).1 in
  tot_sample_nums st = 1 /\
  registrations (trace st) = [] /\
  reports (trace st)
  = [annotate (text_to_function "invalid") None (Some 0) (Some 7)].
Proof. repeat split; reflexivity. Qed.

(** C1 on a run of two samplers: the function of candidate ["a"] is
    registered, with score [Some 1]. *)
Lemma registered_score_not_none_witness :
  let cfg := scenario_cfg seed (Some 3) 2 2 false None in
  (text_to_function "a", Some 0, Some 1)
    ∈ registrations (trace (shared (run env cfg true two_samplers_schedule))) /\
  Some 1 <> (None : option Z).
Proof.
  intros cfg.
  assert ((text_to_function "a", Some 0, Some 1)
            ∈ registrations
                (trace (shared (run env cfg true two_samplers_schedule)))) as H.
  { apply list_elem_of_In. vm_compute. tauto. }
  split; [exact H|].
  exact (registered_score_not_none env cfg true two_samplers_schedule _ _ _ H).
Defined.

(** C2 as stated fails: the program ["nofunc"] does not convert back to
    a function, and the counter has gone up by one all the same. *)
Lemma budget_counter_counts_unconverted_program :
  let cfg := scenario_cfg seed (Some 3) 1 1 false None in
  let st' := (loop_item env cfg None 0 ("nofunc", Some 1, 7) st0).1 in
  ~ (tot_sample_nums st' = tot_sample_nums st0 + 1
     <-> program_to_function env "nofunc" <> None).
Proof.
  intros cfg st' [H _]. apply H; reflexivity.
Qed.

(** C2 as amended, on a batch of two evaluated programs of which the
    first does not convert back to a function: the iteration counts
    both. *)
Lemma budget_counter_counts_every_evaluated_program_witness :
  let env := scenario_env (answer ["nofunc"; "a"]) in
  let cfg := scenario_cfg seed (Some 3) 1 2 false None in
  let r := try_block env cfg st0 in
  r = (r.1, inr tt) /\
  tot_sample_nums r.1 = tot_sample_nums st0 + 2.
Proof.
  intros env' cfg r.
  assert (r = (r.1, inr tt)) as H by reflexivity.
  split; [exact H|].
  destruct (proj2 (proj2 (proj2
              (budget_counter_counts_every_evaluated_program env' cfg)))
              st0 r.1 r.2 eq_refl)
    as [(e & Hsb & _)|(st1 & b & Hsb & _ & Hr)].
  - vm_compute in Hsb. discriminate Hsb.
  - vm_compute in Hsb. injection Hsb as _ <-. exact Hr.
Defined.

(** C3 on a seed program that the evaluator gives no score. *)
Lemma seed_without_score_aborts_witness :
  let cfg := scenario_cfg "invalid" (Some 3) 2 2 false (Some ProfilerBase) in
  let s := run env cfg true two_samplers_schedule in
  resume_mode cfg = false /\
  evaluate_program_record_time env [] (template_program cfg) = inr (None, 7) /\
  main_thread s = MRaised (RuntimeError seed_error_message) /\
  registrations (trace (shared s)) = [] /\
  reports (trace (shared s)) = [].
Proof.
  intros cfg s.
  assert (resume_mode cfg = false) as H1 by reflexivity.
  assert (evaluate_program_record_time env [] (template_program cfg)
          = inr (None, 7)) as H2 by reflexivity.
  destruct (seed_without_score_aborts env cfg true two_samplers_schedule 7
              H1 H2) as (Hm & _ & _ & _ & Hr & Hp).
  repeat split; assumption.
Defined.


(** C5 as stated fails when the increments interleave: three samplers,
    one sample per prompt and a budget of two end with the counter at
    five, which is not below 2 + 3 * 1. *)
Lemma budget_counter_overshoots_under_race :
  let env := scenario_env (answer ["a"]) in
  let cfg := scenario_cfg seed (Some 2) 3 1 false None in
  let s := run env cfg false race_schedule in
  completed s /\
  main_thread s = MReturned /\
  one_candidate_per_prompt env /\
  ~ (2 <= tot_sample_nums (shared s) /\
     tot_sample_nums (shared s) < 2 + num_samplers cfg * samples_per_prompt cfg).
Proof.
  intros env' cfg s.
  split; [|split; [|split]].
  - unfold completed. vm_compute. repeat constructor.
  - reflexivity.
  - apply answer_one_candidate_per_prompt.
  - intros [_ H]. vm_compute in H. discriminate H.
Qed.

Lemma budget_counter_final_bounds_witness :
  let cfg := scenario_cfg seed (Some 3) 2 2 false None in
  let s := run env cfg true two_samplers_schedule in
  completed s /\
  3 <= tot_sample_nums (shared s) /\
  (true = true -> tot_sample_nums (shared s) < 3 + 2 * 2).
Proof.
  intros cfg s.
  assert (completed s) as H.
  { unfold completed. vm_compute. repeat constructor. }
  split; [exact H|].
  apply (budget_counter_final_bounds env cfg true two_samplers_schedule 3);
    [reflexivity | lia | reflexivity | reflexivity
    | apply answer_one_candidate_per_prompt | exact H].
Defined.

(** C6 on a run of two samplers. *)
Lemma seed_registered_once_before_workers_witness :
  let cfg := scenario_cfg seed (Some 3) 2 2 false None in
  let pre := [EvEvaluateSeed seed;
              EvDbRegister (text_to_function seed) None (Some 1)] in
  (exists post,
     trace (shared (run env cfg true two_samplers_schedule))
     = (pre ++ EvThreadStart 0 :: post)%list) /\
  exists s, registrations pre = [(function_to_evolve cfg, None, Some s)].
Proof.
  intros cfg pre.
  assert (exists post,
            trace (shared (run env cfg true two_samplers_schedule))
            = (pre ++ EvThreadStart 0 :: post)%list) as [post H].
  { eexists. vm_compute. reflexivity. }
  split; [by exists post|].
  refine (proj1 (seed_registered_once_before_workers env cfg true
                   two_samplers_schedule pre 0 post eq_refl H _)).
  repeat constructor.
Defined.

(** C7 on a batch of one candidate that converts and one that does
    not. *)
Lemma failed_conversion_is_dropped_witness :
  let env := scenario_env (answer ["bad"; "a"]) in
  let cfg := scenario_cfg seed (Some 3) 1 2 false None in
  let r := try_block env cfg st0 in
  r = (r.1, inr tt) /\
  tot_sample_nums r.1 = 1 /\
  pool r.1 = ["a"].
Proof.
  intros env' cfg r.
  assert (r = (r.1, inr tt)) as H by reflexivity.
  split; [exact H|].
  destruct (failed_conversion_is_dropped env' cfg st0
              (mkPrompt seed (Some 0)) ["bad"; "a"] eq_refl eq_refl)
    as (_ & Htry & _); [discriminate|].
  destruct (Htry r.1 H) as (Hc & Hp & _).
  split; [exact Hc | exact Hp].
Defined.

(** C8 as stated fails: the store raises at the first registration of
    a batch of two evaluated programs that both convert back to
    functions, and with a profiler configured neither is reported. *)
Lemma converted_sample_unreported_when_store_raises :
  let env := failing_store_env in
  let cfg := scenario_cfg seed (Some 3) 1 2 false (Some ProfilerBase) in
  let b := mkBatch (Some 0) 0 [("a", Some 1, 7); ("b", Some 1, 7)] in
  (sample_batch env cfg st0).2 = inr b /\
  profiler cfg = Some ProfilerBase /\
  program_to_function env "a" = Some (text_to_function "a") /\
  program_to_function env "b" = Some (text_to_function "b") /\
  ~ (exists f, f ∈ reports (trace (iteration env cfg st0).1)).
Proof.
  intros env' cfg b.
  split; [reflexivity|]. split; [reflexivity|]. split; [reflexivity|].
  split; [reflexivity|].
  intros [f Hf]. vm_compute in Hf. by apply elem_of_nil in Hf.
Qed.

(** C8 as amended, on a batch of one candidate that fails conversion
    and one that is evaluated without score: one report with score
    [None], no registration. *)
Lemma converted_sample_is_reported_witness :
  let env := scenario_env (answer ["bad"; "invalid"]) in
  let cfg := scenario_cfg seed (Some 3) 1 2 false (Some FunSearchProfiler) in
  let sb := sample_batch env cfg st0 in
  let r := try_block env cfg st0 in
  profiler cfg = Some FunSearchProfiler /\
  sb = (sb.1, inr (mkBatch (Some 0) 0 [("invalid", None, 7)])) /\
  r = (r.1, inr tt) /\
  exists evs,
    trace r.1 = (trace sb.1 ++ evs)%list /\
    reports evs = [mkFunction "f" "invalid" None (Some 0) (Some 7)] /\
    registrations evs = [].
Proof.
  intros env' cfg sb r.
  split; [reflexivity|]. split; [reflexivity|]. split; [reflexivity|].
  destruct (proj1 (proj2 (converted_sample_is_reported env' cfg))
              FunSearchProfiler
              st0 sb.1 r.1 (mkBatch (Some 0) 0 [("invalid", None, 7)]) r.2
              eq_refl eq_refl eq_refl)
    as (evs & Htr & _ & _ & Heq).
  destruct (Heq eq_refl) as [Hrep Hreg].
  exists evs. split; [exact Htr|]. split; [exact Hrep | exact Hreg].
Defined.

(** C9 at the failing input: [debug_mode] is on and the first iteration
    of the first sampler thread raises.  The traceback is printed and
    [exit()] is called, which ends that thread only: afterwards the
    second thread draws a prompt, registers a function and returns, and
    [run] returns after finishing the profiler. *)
Theorem debug_exit_leaves_process_running :
  let env := scenario_env (fails_first ["a"]) in
  let cfg := scenario_cfg seed (Some 1) 2 1 true (Some ProfilerBase) in
  let s := run env cfg true debug_schedule in
  debug_mode cfg = true /\
  main_thread s = MReturned /\
  workers s = [WUnwound SystemExit; WReturned BudgetReached] /\
  drop 5 (trace (shared s))
  = [EvGetPrompt; EvDrawSamples [seed]; EvPrintExc; EvExit;
     EvGetPrompt; EvDrawSamples [seed];
     EvDbRegister (text_to_function "a") (Some 0) (Some 1);
     EvProfRegister (annotate (text_to_function "a") (Some 1) (Some 1) (Some 7));
     EvShutdown; EvProfFinish].
Proof. repeat split; reflexivity. Qed.

(** The iteration of a sampler that answers no candidate, without
    [debug_mode]. *)
Lemma empty_sample_list_divides_by_zero_skipped :
  let env := scenario_env (answer []) in
  let cfg := scenario_cfg seed (Some 3) 1 2 false None in
  iteration env cfg st0
  = (sampled_state cfg st0 (mkPrompt seed (Some 0)) [], Continue) /\
  tot_sample_nums (iteration env cfg st0).1 = 0.
Proof.
  intros env' cfg.
  destruct (empty_sample_list_divides_by_zero env' cfg st0
              (mkPrompt seed (Some 0)) eq_refl eq_refl)
    as (st1 & Htry & _ & _ & _ & Hit & Hc & _ & _).
  split; [reflexivity | exact Hc].
Qed.

(** C10 at the failing input: [debug_mode] is on and the sampler
    answers an empty list to the first sampler thread.  Line 133 raises
    [ZeroDivisionError] before anything is submitted or counted, the
    traceback is printed and [exit()] is called, which ends that thread
    only: afterwards the second thread draws a prompt, registers a
    function and returns, and [run] returns after finishing the
    profiler. *)
Theorem empty_sample_list_exit_leaves_process_running :
  let env := scenario_env (empty_first ["a"]) in
  let cfg := scenario_cfg seed (Some 1) 2 1 true (Some ProfilerBase) in
  let started := run env cfg true [RunMain; RunMain] in
  let s := run env cfg true debug_schedule in
  debug_mode cfg = true /\
  draw_samples env (trace (shared started) ++ [EvGetPrompt])%list [seed]
  = inr [] /\
  (try_block env cfg (shared started)).2 = inl ZeroDivisionError /\
  tot_sample_nums (try_block env cfg (shared started)).1 = 0 /\
  pool (try_block env cfg (shared started)).1 = [] /\
  main_thread s = MReturned /\
  workers s = [WUnwound SystemExit; WReturned BudgetReached] /\
  tot_sample_nums (shared s) = 1 /\
  drop 5 (trace (shared s))
  = [EvGetPrompt; EvDrawSamples [seed]; EvPrintExc; EvExit;
     EvGetPrompt; EvDrawSamples [seed];
     EvDbRegister (text_to_function "a") (Some 0) (Some 1);
     EvProfRegister (annotate (text_to_function "a") (Some 1) (Some 1) (Some 7));
     EvShutdown; EvProfFinish].
Proof. repeat split; reflexivity. Qed.

(** ** Further properties on concrete runs *)

Lemma scenario_well_behaved :
  well_behaved env (scenario_cfg seed (Some 3) 1 2 false None).
Proof.
  repeat split; intros; try reflexivity; by eexists.
Qed.

(** X1 on a resumed run of two samplers. *)
Lemma resume_skips_the_seed_witness :
  let cfg := resumed (scenario_cfg seed (Some 3) 2 2 false None) in
  let log := trace (shared (run env cfg true two_samplers_schedule)) in
  resume_mode cfg = true /\
  (forall p, ~ (EvEvaluateSeed p ∈ log)) /\
  (log = [] \/ (exists rest, log = EvThreadStart 0 :: rest) \/
   log = [EvProfFinish]).
Proof.
  intros cfg log. split; [reflexivity|].
  exact (resume_skips_the_seed env cfg true two_samplers_schedule eq_refl).
Defined.

(** X2 on a run of two samplers without profiler. *)
Lemma no_profiler_no_profiler_call_witness :
  let cfg := scenario_cfg seed (Some 3) 2 2 false None in
  let log := trace (shared (run env cfg true two_samplers_schedule)) in
  profiler cfg = None /\
  reports log = [] /\ ~ (EvProfRegisterDb ∈ log) /\ ~ (EvProfFinish ∈ log).
Proof.
  intros cfg log. split; [reflexivity|].
  exact (no_profiler_no_profiler_call env cfg true two_samplers_schedule
           eq_refl).
Defined.

(** X3 on a run with a [FunSearchProfiler]. *)
Lemma program_db_only_on_funsearch_profiler_witness :
  let cfg := scenario_cfg seed (Some 3) 2 2 false (Some FunSearchProfiler) in
  EvProfRegisterDb ∈ trace (shared (run env cfg true two_samplers_schedule)) /\
  profiler cfg = Some FunSearchProfiler.
Proof.
  intros cfg.
  assert (EvProfRegisterDb
            ∈ trace (shared (run env cfg true two_samplers_schedule))) as H.
  { apply list_elem_of_In. vm_compute. tauto. }
  split; [exact H|].
  exact (program_db_only_on_funsearch_profiler env cfg true
           two_samplers_schedule H).
Defined.

(** X4 on a run whose sampler fails once, without [debug_mode]. *)
Lemma no_debug_no_exit_witness :
  let env := scenario_env (fails_first ["a"]) in
  let cfg := scenario_cfg seed (Some 1) 2 1 false None in
  let log := trace (shared (run env cfg true debug_schedule)) in
  debug_mode cfg = false /\ ~ (EvPrintExc ∈ log) /\ ~ (EvExit ∈ log).
Proof.
  intros env' cfg log. split; [reflexivity|].
  exact (no_debug_no_exit env' cfg true debug_schedule eq_refl).
Defined.

(** X5 on a run with two samples per prompt. *)
Lemma batch_request_replicates_prompt_witness :
  let cfg := scenario_cfg seed (Some 3) 2 2 false None in
  EvDrawSamples [seed; seed]
    ∈ trace (shared (run env cfg true two_samplers_schedule)) /\
  exists text, [seed; seed] = replicate (Z.to_nat (samples_per_prompt cfg)) text.
Proof.
  intros cfg.
  assert (EvDrawSamples [seed; seed]
            ∈ trace (shared (run env cfg true two_samplers_schedule))) as H.
  { apply list_elem_of_In. vm_compute. tauto. }
  split; [exact H|].
  exact (batch_request_replicates_prompt env cfg true two_samplers_schedule
           _ H).
Defined.

(** X8 on a run of two samplers with a profiler. *)
Lemma run_returns_after_all_threads_witness :
  let cfg := scenario_cfg seed (Some 3) 2 2 false (Some ProfilerBase) in
  let s := run env cfg true two_samplers_schedule in
  main_thread s = MReturned /\
  length (workers s) = 2%nat /\
  Forall (fun w => terminated w = true) (workers s) /\
  thread_starts (trace (shared s)) = [0; 1]%nat /\
  (profiler cfg <> None ->
   count_finishes (trace (shared s)) = 1%nat /\
   exists calls, trace (shared s) = (calls ++ [EvProfFinish])%list) /\
  forall a, step env cfg true s a = s.
Proof.
  intros cfg s. split; [reflexivity|].
  exact (run_returns_after_all_threads env cfg true two_samplers_schedule
           eq_refl).
Defined.

(** X9 on a store that raises when the seed is registered. *)
Lemma startup_exception_aborts_run_witness :
  let env := failing_store_env in
  let cfg := scenario_cfg seed (Some 3) 2 2 false None in
  let st := (seed_and_register env cfg st0).1 in
  seed_and_register env cfg st0 = (st, inl (OtherException "ValueError")) /\
  run env cfg true two_samplers_schedule
  = mkSystem st (MRaised (OtherException "ValueError"))
      [WNotStarted; WNotStarted].
Proof.
  intros env' cfg st. split; [reflexivity|].
  exact (startup_exception_aborts_run env' cfg true two_samplers_schedule
           st (OtherException "ValueError") eq_refl).
Defined.

(** X10 on a run without samplers. *)
Lemma no_samplers_no_sampling_witness :
  let cfg := scenario_cfg seed (Some 3) 0 2 false (Some ProfilerBase) in
  let s := run env cfg true two_samplers_schedule in
  num_samplers cfg <= 0 /\
  workers s = [] /\
  (trace (shared s) = trace (shared (boot env cfg)) \/
   trace (shared s)
   = (trace (shared (boot env cfg)) ++ [EvProfFinish])%list).
Proof.
  intros cfg s. split; [vm_compute; discriminate|].
  apply (no_samplers_no_sampling env cfg true two_samplers_schedule).
  vm_compute. discriminate.
Defined.

(** X11 on a run of two samplers without ceiling. *)
Lemma unbounded_budget_never_exhausts_witness :
  let cfg := scenario_cfg seed None 2 2 false None in
  let s := run env cfg true two_samplers_schedule in
  max_sample_nums cfg = None /\
  Forall (fun w => w <> WReturned BudgetReached) (workers s) /\
  (0 < num_samplers cfg -> ~ completed s).
Proof.
  intros cfg s. split; [reflexivity|].
  exact (unbounded_budget_never_exhausts env cfg true two_samplers_schedule
           eq_refl).
Defined.

(** X14 on a sampler of which no candidate converts. *)
Lemma unconvertible_candidates_never_terminate_witness :
  let env := unconvertible_env in
  let cfg := scenario_cfg seed (Some 3) 1 2 false None in
  debug_mode cfg = false /\
  (forall func, sample_to_program env func (template_program cfg) = None) /\
  budget_left cfg st0 = true /\
  sample_evaluate_register env cfg 100 st0 = None.
Proof.
  intros env' cfg.
  split; [reflexivity|]. split; [reflexivity|]. split; [reflexivity|].
  apply (unconvertible_candidates_never_terminate env' cfg 100 st0);
    try reflexivity; intros; intros e; discriminate.
Defined.

(** X15 on a run that asks for no sample per prompt. *)
Lemma no_samples_per_prompt_no_progress_witness :
  let cfg := scenario_cfg seed (Some 3) 2 0 false None in
  let s := run env cfg true two_samplers_schedule in
  samples_per_prompt cfg <= 0 /\
  tot_sample_nums (shared s) = 0 /\
  pool (shared s) = [] /\
  registrations (trace (shared s))
  = registrations (trace (shared (boot env cfg))).
Proof.
  intros cfg s. split; [vm_compute; discriminate|].
  apply (no_samples_per_prompt_no_progress env cfg true
           two_samplers_schedule).
  - vm_compute. discriminate.
  - apply answer_one_candidate_per_prompt.
Defined.

(** X16 on an iteration of two candidates. *)
Lemma registration_provenance_witness :
  let cfg := scenario_cfg seed (Some 3) 1 2 false None in
  let r := try_block env cfg st0 in
  get_prompt env (trace st0) = inr (mkPrompt seed (Some 0)) /\
  exists evs,
    trace r.1 = (trace st0 ++ evs)%list /\
    forall f i s,
      (f, i, s) ∈ registrations evs ->
      i = Some 0 /\
      exists k p t,
        pool r.1 !! (length (pool st0) + k)%nat = Some p /\
        future_result env (length (pool st0) + k)%nat p = inr (s, t) /\
        program_to_function env p = Some f.
Proof.
  intros cfg r. split; [reflexivity|].
  exact (registration_provenance env cfg st0 r.1 r.2
           (mkPrompt seed (Some 0)) eq_refl eq_refl).
Defined.

(** X17 on a store that raises at the first registration of a batch of
    two: one sample is counted, two programs were submitted. *)
Lemma failed_registration_cuts_batch_short_witness :
  let env := failing_store_env in
  let cfg := scenario_cfg seed (Some 3) 1 2 false None in
  let sb := sample_batch env cfg st0 in
  let b := mkBatch (Some 0) 0 [("a", Some 1, 7); ("b", Some 1, 7)] in
  let r := register_all env cfg (batch_island b) (batch_avg b)
             (batch_items b) sb.1 in
  sb = (sb.1, inr b) /\
  r = (r.1, inl (OtherException "ValueError")) /\
  iteration env cfg st0 = (r.1, Continue) /\
  (exists k,
     (k < 2)%nat /\ tot_sample_nums r.1 = tot_sample_nums st0 + Z.of_nat k + 1) /\
  length (pool r.1) = 2%nat.
Proof.
  intros env' cfg sb b r.
  split; [reflexivity|]. split; [reflexivity|].
  exact (failed_registration_cuts_batch_short env' cfg st0 sb.1 r.1 b
           (OtherException "ValueError") eq_refl eq_refl eq_refl eq_refl).
Defined.

(** X18 on one sampler, two samples per prompt and a ceiling of three:
    two iterations, and the counter ends at four. *)
Lemma worker_terminates_witness :
  let cfg := scenario_cfg seed (Some 3) 1 2 false None in
  (Z.to_nat (3 - tot_sample_nums st0) <= 3)%nat /\
  exists st',
    sample_evaluate_register env cfg 3 st0
    = Some (shutdown st', WReturned BudgetReached) /\
    3 <= tot_sample_nums st' /\
    (tot_sample_nums st0 < 3 ->
     tot_sample_nums st' < 3 + samples_per_prompt cfg) /\
    (3 <= tot_sample_nums st0 -> st' = st0).
Proof.
  intros cfg. split; [vm_compute; lia|].
  apply (worker_terminates env cfg 3 3 st0 eq_refl scenario_well_behaved
           (answer_one_candidate_per_prompt _)).
  vm_compute. lia.
Defined.
